(** * The Quasar wallet connector ([src/connectors/quasar/quasarConnector.ts])

    A shallow embedding of the connector class [BscConnector] and of the
    response normaliser [parseSendReturn], together with the part of the
    JavaScript semantics the connector relies on: dynamically typed
    values, truthiness, property reads, promises and exceptions.

    The injected wallet provider ([window.QuasarChain]) is foreign code;
    it is modelled by what it answers when the connector calls it. *)

From Stdlib Require Import String Ascii List ZArith Bool DecimalString.
Import ListNotations.
Local Open Scope string_scope.

Set Warnings "-register-all".

(** ** JavaScript values *)

(** Numbers: the connector only tests them for truthiness and compares one
    with the literal [4001], so integers and [NaN] are kept. *)
Inductive number :=
| NaN
| Int (z : Z).

(** The three error classes the connector can raise: the two it declares
    (lines 11-25) and the engine's [TypeError]. *)
Inductive error_class :=
| NoBscProviderError
| UserRejectedRequestError
| TypeError.

(** Values are JSON-like data, error objects of the classes above, and
    promises.  There are no function values: a property holding one is
    outside the model. *)
Inductive value :=
| VUndef
| VNull
| VBool (b : bool)
| VNum (n : number)
| VStr (s : string)
| VArr (elems : list value)
| VObj (fields : list (string * value))
| VError (c : error_class)
| VPromise (st : settlement)
with settlement :=
| Resolved (v : value)
| Rejected (reason : value)
| Pending.

(** How an evaluation ends: with a value, with a thrown value, or never
    (a promise that is awaited and never settles). *)
Inductive completion (A : Type) :=
| Ok (a : A)
| Throw (e : value)
| Hang.
Arguments Ok {A} a.
Arguments Throw {A} e.
Arguments Hang {A}.

Definition cbind {A B} (c : completion A) (k : A -> completion B) : completion B :=
  match c with
  | Ok a => k a
  | Throw e => Throw e
  | Hang => Hang
  end.

(** [ToBoolean]. *)
Definition truthy (v : value) : bool :=
  match v with
  | VUndef | VNull => false
  | VBool b => b
  | VNum NaN => false
  | VNum (Int z) => negb (Z.eqb z 0)
  | VStr s => negb (String.eqb s "")
  | VArr _ | VObj _ | VError _ | VPromise _ => true
  end.

(** [v === 4001]. *)
Definition is_4001 (v : value) : bool :=
  match v with
  | VNum (Int z) => Z.eqb z 4001
  | _ => false
  end.

(** Own data property of an object literal; the first binding of a key is
    the one in force. *)
Fixpoint lookup (k : string) (fs : list (string * value)) : option value :=
  match fs with
  | [] => None
  | (k', v) :: rest => if String.eqb k k' then Some v else lookup k rest
  end.

Definition has_own (k : string) (fs : list (string * value)) : bool :=
  match lookup k fs with
  | Some _ => true
  | None => false
  end.

Definition or_undefined (o : option value) : value :=
  match o with
  | Some v => v
  | None => VUndef
  end.

(** A property key is an array index when it is the canonical decimal
    spelling of a natural number. *)
Definition index_of_key (k : string) : option nat :=
  match NilZero.uint_of_string k with
  | Some d =>
      let n := Nat.of_uint d in
      if String.eqb (NilZero.string_of_uint (Nat.to_uint n)) k then Some n else None
  | None => None
  end.

Fixpoint char_at (i : nat) (s : string) : option ascii :=
  match s, i with
  | EmptyString, _ => None
  | String c _, O => Some c
  | String _ rest, S j => char_at j rest
  end.

Definition message_of (c : error_class) : string :=
  match c with
  | NoBscProviderError => "No QUASAR provider was found on window.QuasarChain."
  | UserRejectedRequestError => "The user rejected the request."
  | TypeError => ""
  end.

Definition name_of (c : error_class) : string :=
  match c with
  | NoBscProviderError => "NoBscProviderError"
  | UserRejectedRequestError => "UserRejectedRequestError"
  | TypeError => "TypeError"
  end.

(** Property read [v[k]] for a data key [k] (one that no built-in prototype
    defines as a method; the connector reads [0], [code], [length] and
    [net_version]).  Reading a property of [undefined] or [null] throws.
    The text of an engine [TypeError] is engine specific and is left
    empty. *)
Definition get_prop (v : value) (k : string) : completion value :=
  match v with
  | VUndef | VNull => Throw (VError TypeError)
  | VObj fs => Ok (or_undefined (lookup k fs))
  | VArr l =>
      if String.eqb k "length" then Ok (VNum (Int (Z.of_nat (List.length l))))
      else match index_of_key k with
           | Some i => Ok (nth i l VUndef)
           | None => Ok VUndef
           end
  | VStr s =>
      if String.eqb k "length" then Ok (VNum (Int (Z.of_nat (String.length s))))
      else match index_of_key k with
           | Some i => match char_at i s with
                       | Some c => Ok (VStr (String c EmptyString))
                       | None => Ok VUndef
                       end
           | None => Ok VUndef
           end
  | VError c =>
      if String.eqb k "name" then Ok (VStr (name_of c))
      else if String.eqb k "message" then Ok (VStr (message_of c))
      else Ok VUndef
  | VBool _ | VNum _ | VPromise _ => Ok VUndef
  end.

(** ** Promises *)

(** [await v]: a promise is unwrapped to what it settles to (a promise
    resolved with a promise takes over its state), anything else is
    passed through. *)
Fixpoint await_ (v : value) : completion value :=
  match v with
  | VPromise st =>
      match st with
      | Resolved r => await_ r
      | Rejected e => Throw e
      | Pending => Hang
      end
  | _ => Ok v
  end.

Definition promise_of (c : completion value) : value :=
  match c with
  | Ok v => VPromise (Resolved v)
  | Throw e => VPromise (Rejected e)
  | Hang => VPromise Pending
  end.

(** [v.then(cb)] for a callback without effects.  On a promise it yields
    the derived promise; on anything else [then] is not a function (and on
    [undefined] or [null] not even a property), so the call throws. *)
Definition then_ (v : value) (cb : value -> completion value) : completion value :=
  match v with
  | VPromise _ => Ok (promise_of (cbind (await_ v) cb))
  | _ => Throw (VError TypeError)
  end.

(** ** The response normaliser (lines 7-9)

    [sendReturn.hasOwnProperty('result') ? sendReturn.result : sendReturn].
    The method [hasOwnProperty] is inherited, so the call needs a receiver
    that is not [undefined] or [null] and, on an object, no own property
    of that name shadowing it (such a property holds data here, and calling
    it throws). *)
Definition parseSendReturn (sendReturn : value) : completion value :=
  match sendReturn with
  | VUndef | VNull => Throw (VError TypeError)
  | VObj fs =>
      if has_own "hasOwnProperty" fs then Throw (VError TypeError)
      else match lookup "result" fs with
           | Some r => Ok r
           | None => Ok sendReturn
           end
  | _ => Ok sendReturn
  end.

(** ** The injected provider *)

(** The two ways the connector calls [send]: with a method name
    ([send('eth_chainId')]) and with a request object
    ([send({ method: 'net_version' })]). *)
Inductive send_arg :=
| ByName (method : string)
| ByObject (method : string).

(** The four handlers bound once in the constructor (lines 31-34); the
    same references are handed to [on] and to [removeListener]. *)
Inductive listener :=
| BoundChainChanged
| BoundAccountsChanged
| BoundClose
| BoundNetworkChanged.

(** What the connector can observe of [window.QuasarChain]: for each of
    the members [on], [removeListener], [send] and [enable], how a call of
    it ends ([None]: the member is missing, that is falsy, and calling it
    throws; a member that is there without being a function is one whose
    every call throws a [TypeError]); the data properties; and for each
    property name whether a strict-mode assignment to it is accepted (it is
    not on a frozen provider, and it throws a [TypeError] then).  An answer
    is a synchronous completion; an asynchronous provider answers
    [Ok (VPromise _)].  A record is the provider as it behaves during the
    operations considered; a provider that comes to behave differently is
    another record. *)
Record Provider := {
  on : option (string -> listener -> completion unit);
  removeListener : option (string -> listener -> completion unit);
  send : option (send_arg -> completion value);
  enable : option (completion value);
  props : list (string * value);
  assignable : string -> bool
}.

(** The truthiness test on a member ([if (window.QuasarChain.on)]). *)
Definition has_member {A} (m : option A) : bool :=
  match m with
  | Some _ => true
  | None => false
  end.

(** [ConnectorUpdate]: every field is optional.  The [provider] field
    holds whatever the global slot holds, possibly [undefined]. *)
Record ConnectorUpdate := {
  provider : option (option Provider);
  chainId : option value;
  account : option value
}.

(** What the connector does to its surroundings, in order: the calls it
    makes on the provider and the assignments it makes to it (recorded when
    attempted, also when they then throw), the data properties it reads
    (the tests for [on] and [removeListener] are not recorded), its
    diagnostics and its notifications to the framework. *)
Inductive event :=
| CallOn (name : string) (l : listener)
| CallRemoveListener (name : string) (l : listener)
| CallSend (a : send_arg)
| CallEnable
| ReadProp (k : string)
| WriteProp (k : string) (v : value)
| Warning (msg : string)
| EmitUpdate (u : ConnectorUpdate)
| EmitDeactivate.

(** The global slot [window.QuasarChain] and the trace so far. *)
Record world := {
  QuasarChain : option Provider;
  trace : list event
}.

(** ** The monad of connector code: state, exceptions, divergence

    A thrown value or a hang ends the computation but keeps the effects
    made so far. *)
Definition M (A : Type) : Type := world -> world * completion A.

Definition ret {A} (a : A) : M A := fun w => (w, Ok a).

Definition bind {A B} (m : M A) (k : A -> M B) : M B :=
  fun w =>
    match m w with
    | (w', Ok a) => k a w'
    | (w', Throw e) => (w', Throw e)
    | (w', Hang) => (w', Hang)
    end.

Definition throw {A} (e : value) : M A := fun w => (w, Throw e).

Definition lift {A} (c : completion A) : M A := fun w => (w, c).

(** [try { m } catch (error) { h error }]. *)
Definition try_catch {A} (m : M A) (h : value -> M A) : M A :=
  fun w =>
    match m w with
    | (w', Throw e) => h e w'
    | r => r
    end.

Declare Scope js_scope.
Delimit Scope js_scope with js.
Notation "x <- m ;; k" := (bind m (fun x => k))
  (at level 61, m at next level, right associativity) : js_scope.
Notation "m ;; k" := (bind m (fun _ => k))
  (at level 61, right associativity) : js_scope.
Local Open Scope js_scope.

Definition log (e : event) : M unit :=
  fun w => ({| QuasarChain := QuasarChain w; trace := trace w ++ [e] |}, Ok tt).

(** [warning(false, msg)] of tiny-warning: a diagnostic, never a throw. *)
Definition warning (msg : string) : M unit := log (Warning msg).

(** [!!window.QuasarChain]. *)
Definition provider_present : M bool :=
  fun w => (w, Ok match QuasarChain w with Some _ => true | None => false end).

(** [window.QuasarChain] as the receiver of a member access. *)
Definition the_provider : M Provider :=
  fun w =>
    match QuasarChain w with
    | Some p => (w, Ok p)
    | None => (w, Throw (VError TypeError))
    end.

(** [window.QuasarChain.k] for a data property [k]. *)
Definition read_prop (k : string) : M value :=
  p <- the_provider ;;
  log (ReadProp k) ;;
  ret (or_undefined (lookup k (props p))).

Fixpoint assign (k : string) (v : value) (fs : list (string * value)) :
  list (string * value) :=
  match fs with
  | [] => [(k, v)]
  | (k', v') :: rest =>
      if String.eqb k k' then (k, v) :: rest else (k', v') :: assign k v rest
  end.

Definition with_prop (k : string) (v : value) (p : Provider) : Provider :=
  {| on := on p; removeListener := removeListener p; send := send p;
     enable := enable p; props := assign k v (props p);
     assignable := assignable p |}.

(** [window.QuasarChain.k = v] in strict mode: the provider object itself
    is changed, unless it does not accept the assignment, which throws. *)
Definition write_prop (k : string) (v : value) : M unit :=
  p <- the_provider ;;
  log (WriteProp k v) ;;
  if assignable p k
  then (fun w => ({| QuasarChain := Some (with_prop k v p); trace := trace w |}, Ok tt))
  else throw (VError TypeError).

(** What the provider answers to [send(m).then(cb)], awaited. *)
Definition answer_send_then (p : Provider) (m : string)
  (cb : value -> completion value) : completion value :=
  match send p with
  | None => Throw (VError TypeError)
  | Some f => cbind (f (ByName m)) (fun r => cbind (then_ r cb) await_)
  end.

(** What the provider answers to [enable().then(cb)], awaited. *)
Definition answer_enable_then (p : Provider)
  (cb : value -> completion value) : completion value :=
  match enable p with
  | None => Throw (VError TypeError)
  | Some r0 => cbind r0 (fun r => cbind (then_ r cb) await_)
  end.

(** What the provider answers to the synchronous [send({ method: m })]. *)
Definition answer_send_object (p : Provider) (m : string) : completion value :=
  match send p with
  | None => Throw (VError TypeError)
  | Some f => f (ByObject m)
  end.

(** [await (window.QuasarChain.send as Send)(m).then(cb)]. *)
Definition send_then (m : string) (cb : value -> completion value) : M value :=
  p <- the_provider ;;
  log (CallSend (ByName m)) ;;
  lift (answer_send_then p m cb).

(** [await window.QuasarChain.enable().then(cb)]. *)
Definition enable_then (cb : value -> completion value) : M value :=
  p <- the_provider ;;
  log CallEnable ;;
  lift (answer_enable_then p cb).

(** [(window.QuasarChain.send as SendOld)({ method: m })]. *)
Definition send_object (m : string) : M value :=
  p <- the_provider ;;
  log (CallSend (ByObject m)) ;;
  lift (answer_send_object p m).

(** [sendReturn => parseSendReturn(sendReturn)[0]]. *)
Definition first_of_parsed (sendReturn : value) : completion value :=
  cbind (parseSendReturn sendReturn) (fun x => get_prop x "0").

(** [sendReturn => sendReturn && parseSendReturn(sendReturn)[0]]. *)
Definition guarded_first_of_parsed (sendReturn : value) : completion value :=
  if truthy sendReturn then first_of_parsed sendReturn else Ok sendReturn.

(** What an [async] function resolves to when it returns [v]: a returned
    promise is adopted. *)
Definition async_return (v : value) : M value := lift (await_ v).

(** ** The connector class [BscConnector] *)

(** [emitUpdate] and [emitDeactivate] of the base class notify the
    framework; here they leave an event. *)
Definition emitUpdate (u : ConnectorUpdate) : M unit := log (EmitUpdate u).
Definition emitDeactivate : M unit := log EmitDeactivate.

(** Lines 37-39. *)
Definition handleChainChanged (id : value) : M unit :=
  fun w =>
    emitUpdate {| provider := Some (QuasarChain w); chainId := Some id;
                  account := None |} w.

(** Lines 41-47. *)
Definition handleAccountsChanged (accounts : list string) : M unit :=
  if Nat.eqb (List.length accounts) 0 then emitDeactivate
  else emitUpdate {| provider := None; chainId := None;
                     account := Some (or_undefined
                                        (option_map VStr (nth_error accounts 0))) |}.

(** Lines 49-51. *)
Definition handleClose : M unit := emitDeactivate.

(** Lines 53-55. *)
Definition handleNetworkChanged (networkId : value) : M unit :=
  fun w =>
    emitUpdate {| provider := Some (QuasarChain w); chainId := Some networkId;
                  account := None |} w.

(** The four registrations of lines 63-66 and 173-176, in source order. *)
Definition subscriptions : list (string * listener) :=
  [("chainChanged", BoundChainChanged);
   ("accountsChanged", BoundAccountsChanged);
   ("close", BoundClose);
   ("networkChanged", BoundNetworkChanged)].

Fixpoint for_each {A} (f : A -> M unit) (l : list A) : M unit :=
  match l with
  | [] => ret tt
  | a :: rest => f a ;; for_each f rest
  end.

(** [window.QuasarChain.on(name, handler)]. *)
Definition call_on (nl : string * listener) : M unit :=
  p <- the_provider ;;
  log (CallOn (fst nl) (snd nl)) ;;
  match on p with
  | Some f => lift (f (fst nl) (snd nl))
  | None => throw (VError TypeError)
  end.

(** [window.QuasarChain.removeListener(name, handler)]. *)
Definition call_removeListener (nl : string * listener) : M unit :=
  p <- the_provider ;;
  log (CallRemoveListener (fst nl) (snd nl)) ;;
  match removeListener p with
  | Some f => lift (f (fst nl) (snd nl))
  | None => throw (VError TypeError)
  end.

(** The diagnostics of lines 83, 108, 115, 123, 153 and 160. *)
Definition warn_requestAccounts : string :=
  "eth_requestAccounts was unsuccessful, falling back to enable".
Definition warn_eth_chainId : string :=
  "eth_chainId was unsuccessful, falling back to net_version".
Definition warn_net_version : string :=
  "net_version was unsuccessful, falling back to net version v2".
Definition warn_net_version_v2 : string :=
  "net_version v2 was unsuccessful, falling back to manual matches and static properties".
Definition warn_eth_accounts : string :=
  "eth_accounts was unsuccessful, falling back to enable".
Definition warn_enable : string :=
  "enable was unsuccessful, falling back to eth_accounts v2".

(** The first attempt of [activate] (lines 74-84): the value of [account]
    after the [try] statement. *)
Definition request_accounts : M value :=
  try_catch
    (send_then "eth_requestAccounts" first_of_parsed)
    (fun error =>
       code <- lift (get_prop error "code") ;;
       if is_4001 code then throw (VError UserRejectedRequestError)
       else warning warn_requestAccounts ;;
            ret VUndef).

(** Lines 57-93. *)
Definition activate : M ConnectorUpdate :=
  present <- provider_present ;;
  if negb present then throw (VError NoBscProviderError)
  else
    p <- the_provider ;;
    (if has_member (on p) then for_each call_on subscriptions else ret tt) ;;
    isMetaMask <- read_prop "isMetaMask" ;;
    (if truthy isMetaMask
     then write_prop "autoRefreshOnNetworkChange" (VBool false)
     else ret tt) ;;
    account <- request_accounts ;;
    account <- (if negb (truthy account)
                then enable_then guarded_first_of_parsed
                else ret account) ;;
    (fun w =>
       (w, Ok {| provider := Some (QuasarChain w); chainId := None;
                 account := if truthy account then Some account else None |})).

(** Lines 95-97. *)
Definition getProvider : M (option Provider) :=
  fun w => (w, Ok (QuasarChain w)).

(** [a || b || c || d] over the provider's data properties (lines 131-135):
    each is read only if all before it were falsy. *)
Fixpoint first_truthy_prop (k : string) (rest : list string) : M value :=
  v <- read_prop k ;;
  match rest with
  | [] => ret v
  | k' :: rest' => if truthy v then ret v else first_truthy_prop k' rest'
  end.

(** The static fallback of [getChainId] (lines 128-136). *)
Definition static_chain_id : M value :=
  isDapper <- read_prop "isDapper" ;;
  if truthy isDapper then
    cachedResults <- read_prop "cachedResults" ;;
    net_version <- lift (get_prop cachedResults "net_version") ;;
    lift (parseSendReturn net_version)
  else
    first_truthy_prop "chainId" ["netVersion"; "networkVersion"; "_chainId"].

(** Lines 99-140. *)
Definition getChainId : M value :=
  present <- provider_present ;;
  if negb present then throw (VError NoBscProviderError)
  else
    chainId <- try_catch
                 (send_then "eth_chainId" parseSendReturn)
                 (fun _ =>
                    warning warn_eth_chainId ;;
                    ret VUndef) ;;
    chainId <- (if negb (truthy chainId) then
                  try_catch
                    (send_then "net_version" parseSendReturn)
                    (fun _ =>
                       warning warn_net_version ;;
                       ret chainId)
                else ret chainId) ;;
    chainId <- (if negb (truthy chainId) then
                  try_catch
                    (r <- send_object "net_version" ;; lift (parseSendReturn r))
                    (fun _ =>
                       warning warn_net_version_v2 ;;
                       ret chainId)
                else ret chainId) ;;
    chainId <- (if negb (truthy chainId) then static_chain_id else ret chainId) ;;
    async_return chainId.

(** Lines 142-169. *)
Definition getAccount : M value :=
  present <- provider_present ;;
  if negb present then throw (VError NoBscProviderError)
  else
    account <- try_catch
                 (send_then "eth_accounts" first_of_parsed)
                 (fun _ =>
                    warning warn_eth_accounts ;;
                    ret VUndef) ;;
    account <- (if negb (truthy account) then
                  try_catch
                    (enable_then first_of_parsed)
                    (fun _ =>
                       warning warn_enable ;;
                       ret account)
                else ret account) ;;
    account <- (if negb (truthy account) then
                  r <- send_object "eth_accounts" ;;
                  x <- lift (parseSendReturn r) ;;
                  lift (get_prop x "0")
                else ret account) ;;
    async_return account.

(** Lines 171-178. *)
Definition deactivate : M unit :=
  fun w =>
    match QuasarChain w with
    | Some p =>
        if has_member (removeListener p)
        then for_each call_removeListener subscriptions w
        else (w, Ok tt)
    | None => (w, Ok tt)
    end.

Section Coercion.

(** [ToNumber] on values that are not numbers (string parsing and the like)
    is the engine's; [isAuthorized] needs it only when the provider
    answers with an object whose [length] is not a number. *)
Variable to_number : value -> number.

(** [v > 0]. *)
Definition gt_zero (v : value) : bool :=
  match (match v with VNum n => n | _ => to_number v end) with
  | NaN => false
  | Int z => Z.ltb 0 z
  end.

(** The callback of line 186-192. *)
Definition has_accounts (sendReturn : value) : completion value :=
  cbind (parseSendReturn sendReturn) (fun x =>
  cbind (get_prop x "length") (fun len =>
  Ok (VBool (gt_zero len)))).

(** Lines 180-196. *)
Definition isAuthorized : M value :=
  present <- provider_present ;;
  if negb present then ret (VBool false)
  else
    try_catch
      (send_then "eth_accounts" has_accounts)
      (fun _ => ret (VBool false)).

End Coercion.

(** The world a page starts in: nothing has happened yet. *)
Definition initial (slot : option Provider) : world :=
  {| QuasarChain := slot; trace := [] |}.

(** * Vocabulary of the properties *)

(** ** The response normaliser *)

(** [v.hasOwnProperty] finds the inherited method: [v] is neither
    [undefined] nor [null], nor an object with an own property of that
    name. *)
Definition inherits_hasOwnProperty (v : value) : bool :=
  match v with
  | VUndef | VNull => false
  | VObj fs => negb (has_own "hasOwnProperty" fs)
  | _ => true
  end.

(** The own [result] property of [v], if it has one. *)
Definition own_result (v : value) : option value :=
  match v with
  | VObj fs => lookup "result" fs
  | _ => None
  end.

(** ** The event bridge *)

(** [window.QuasarChain && window.QuasarChain.removeListener]. *)
Definition can_remove (w : world) : bool :=
  match QuasarChain w with
  | Some p => has_member (removeListener p)
  | None => false
  end.

(** The four calls of lines 173-176. *)
Definition removals : list event :=
  [CallRemoveListener "chainChanged" BoundChainChanged;
   CallRemoveListener "accountsChanged" BoundAccountsChanged;
   CallRemoveListener "close" BoundClose;
   CallRemoveListener "networkChanged" BoundNetworkChanged].

(** The four calls of lines 63-66. *)
Definition registrations : list event :=
  [CallOn "chainChanged" BoundChainChanged;
   CallOn "accountsChanged" BoundAccountsChanged;
   CallOn "close" BoundClose;
   CallOn "networkChanged" BoundNetworkChanged].

(** A provider with both event capabilities and nothing else. *)
Definition emitter_only : Provider :=
  {| on := Some (fun _ _ => Ok tt);
     removeListener := Some (fun _ _ => Ok tt);
     send := None; enable := None; props := [];
     assignable := fun _ => true |}.

(** A provider whose event members are there without being functions:
    calling them throws. *)
Definition broken_emitter : Provider :=
  {| on := Some (fun _ _ => Throw (VError TypeError));
     removeListener := Some (fun _ _ => Throw (VError TypeError));
     send := None; enable := None; props := [];
     assignable := fun _ => true |}.

(** ** Guarded attempts *)

(** An attempt lets the chain go on to the next style when it failed or
    produced a falsy value ([if (!chainId)], [if (!account)]). *)
Definition falls_through (c : completion value) : bool :=
  match c with
  | Ok v => negb (truthy v)
  | Throw _ => true
  | Hang => false
  end.

(** The diagnostic of a guarded attempt: present exactly when it failed. *)
Definition warned (c : completion value) (msg : string) : list event :=
  match c with
  | Throw _ => [Warning msg]
  | _ => []
  end.

(** The variable after a guarded attempt: the new value, or the previous
    one when the attempt failed. *)
Definition recovered (prev : value) (c : completion value) : completion value :=
  match c with
  | Throw _ => Ok prev
  | _ => c
  end.

(** ** [getChainId] *)

(** The three request styles of [getChainId], as the provider answers
    them. *)
Definition chain_style1 (p : Provider) : completion value :=
  answer_send_then p "eth_chainId" parseSendReturn.
Definition chain_style2 (p : Provider) : completion value :=
  answer_send_then p "net_version" parseSendReturn.
Definition chain_style3 (p : Provider) : completion value :=
  cbind (answer_send_object p "net_version") parseSendReturn.

(** *** The static fallback *)

(** [window.QuasarChain.k], as a value. *)
Definition static_value (p : Provider) (k : string) : value :=
  or_undefined (lookup k (props p)).

(** The value of [p.k || p.k1 || ... || p.kn]. *)
Fixpoint scan (p : Provider) (k : string) (rest : list string) : value :=
  match rest with
  | [] => static_value p k
  | k' :: rest' =>
      if truthy (static_value p k) then static_value p k else scan p k' rest'
  end.

(** The properties that expression reads: up to the first truthy one. *)
Fixpoint consulted (p : Provider) (k : string) (rest : list string) : list string :=
  k :: match rest with
       | [] => []
       | k' :: rest' =>
           if truthy (static_value p k) then [] else consulted p k' rest'
       end.

(** The properties of the generic scan, in source order. *)
Definition static_names : list string :=
  ["chainId"; "netVersion"; "networkVersion"; "_chainId"].

(** The trace of [getChainId] when all three request styles let the chain
    go on. *)
Definition chain_requests (p : Provider) : list event :=
  CallSend (ByName "eth_chainId") :: warned (chain_style1 p) warn_eth_chainId
  ++ CallSend (ByName "net_version") :: warned (chain_style2 p) warn_net_version
  ++ CallSend (ByObject "net_version") :: warned (chain_style3 p) warn_net_version_v2.

(** ** [getAccount] *)

(** The three request styles of [getAccount], as the provider answers
    them. *)
Definition account_style1 (p : Provider) : completion value :=
  answer_send_then p "eth_accounts" first_of_parsed.
Definition account_style2 (p : Provider) : completion value :=
  answer_enable_then p first_of_parsed.
Definition account_style3 (p : Provider) : completion value :=
  cbind (answer_send_object p "eth_accounts") first_of_parsed.

(** ** [activate] *)

(** The provider object after lines 69-71, when they return. *)
Definition activated (p : Provider) : Provider :=
  if truthy (static_value p "isMetaMask")
  then with_prop "autoRefreshOnNetworkChange" (VBool false) p
  else p.

(** The calls made for a list of registrations on an emitter method [f],
    in order up to the first that does not return, and how they end. *)
Fixpoint emitter_calls (mk : string -> listener -> event)
  (f : string -> listener -> completion unit) (subs : list (string * listener)) :
  list event * completion unit :=
  match subs with
  | [] => ([], Ok tt)
  | nl :: rest =>
      match f (fst nl) (snd nl) with
      | Ok _ => (mk (fst nl) (snd nl) :: fst (emitter_calls mk f rest),
                 snd (emitter_calls mk f rest))
      | failed => ([mk (fst nl) (snd nl)], failed)
      end
  end.

(** The emitter method [f] returns normally for each of the four
    registrations of the connector. *)
Definition returns_for_all (f : string -> listener -> completion unit) : bool :=
  forallb (fun nl => match f (fst nl) (snd nl) with Ok _ => true | _ => false end)
          subscriptions.

(** Lines 62-67 on provider [p]: the [on] calls made and how they end. *)
Definition subscribe_outcome (p : Provider) : list event * completion unit :=
  match on p with
  | Some f => emitter_calls CallOn f subscriptions
  | None => ([], Ok tt)
  end.

(** Lines 172-177 on provider [p]: the [removeListener] calls made and how
    they end. *)
Definition unsubscribe_outcome (p : Provider) : list event * completion unit :=
  match removeListener p with
  | Some f => emitter_calls CallRemoveListener f subscriptions
  | None => ([], Ok tt)
  end.

(** Lines 171-178 in world [w]: the [removeListener] calls [deactivate]
    makes and how they end. *)
Definition removal_outcome (w : world) : list event * completion unit :=
  match QuasarChain w with
  | Some p => unsubscribe_outcome p
  | None => ([], Ok tt)
  end.

(** Lines 62-71 on provider [p], the part of [activate] before its first
    request: what it does and how it ends.  It fails when an [on] call
    fails, or when the provider does not accept the assignment of line
    70. *)
Definition prelude_result (p : Provider) : list event * completion unit :=
  match subscribe_outcome p with
  | (calls, Ok _) =>
      if truthy (static_value p "isMetaMask")
      then ((calls ++ [ReadProp "isMetaMask";
                       WriteProp "autoRefreshOnNetworkChange" (VBool false)])%list,
            if assignable p "autoRefreshOnNetworkChange"
            then Ok tt else Throw (VError TypeError))
      else ((calls ++ [ReadProp "isMetaMask"])%list, Ok tt)
  | failed => failed
  end.

(** What [activate] does before the first request (lines 62-71). *)
Definition activation_prelude (p : Provider) : list event :=
  fst (prelude_result p).

(** Lines 62-71 return normally on [p]. *)
Definition prelude_ok (p : Provider) : bool :=
  match snd (prelude_result p) with
  | Ok _ => true
  | _ => false
  end.

(** The two request styles of [activate], as the provider answers them. *)
Definition auth_style1 (p : Provider) : completion value :=
  answer_send_then p "eth_requestAccounts" first_of_parsed.
Definition auth_style2 (p : Provider) : completion value :=
  answer_enable_then p guarded_first_of_parsed.

(** The [catch] block of lines 79-84 applied to the outcome of the first
    style: the value of [account] after the [try] statement, or what is
    thrown out of it. *)
Definition classify (c : completion value) : completion value :=
  match c with
  | Throw error =>
      cbind (get_prop error "code") (fun code =>
        if is_4001 code then Throw (VError UserRejectedRequestError) else Ok VUndef)
  | _ => c
  end.

(** The rejection reason, if any, is an object or a primitive on which
    [error.code] can be read. *)
Definition reason_readable (c : completion value) : bool :=
  match c with
  | Throw VUndef | Throw VNull => false
  | _ => true
  end.

(** The result of a successful [activate]. *)
Definition activation (p : Provider) (account : value) : ConnectorUpdate :=
  {| provider := Some (Some (activated p)); chainId := None;
     account := if truthy account then Some account else None |}.

(** The first style failed with an error whose [code] is [4001]. *)
Definition user_rejected (c : completion value) : bool :=
  match c with
  | Throw error =>
      match get_prop error "code" with
      | Ok code => is_4001 code
      | _ => false
      end
  | _ => false
  end.

(** ** Concrete providers *)

Definition method_not_found : value :=
  VObj [("code", VNum (Int (-32601))); ("message", VStr "Method not found")].

(** [send('eth_chainId')] rejects; any other named request resolves to
    [{ result: "56" }]; the object style is not supported. *)
Definition rejects_then_56 : Provider :=
  {| on := None; removeListener := None;
     send := Some (fun a =>
       match a with
       | ByName m =>
           if String.eqb m "eth_chainId"
           then Ok (VPromise (Rejected method_not_found))
           else Ok (VPromise (Resolved (VObj [("result", VStr "56")])))
       | ByObject _ => Throw (VError TypeError)
       end);
     enable := None; props := [];
     assignable := fun _ => true |}.

(** [send('eth_chainId')] resolves to [{ result: null }]; any other named
    request resolves to [{ result: "56" }]. *)
Definition null_then_56 : Provider :=
  {| on := None; removeListener := None;
     send := Some (fun a =>
       match a with
       | ByName m =>
           if String.eqb m "eth_chainId"
           then Ok (VPromise (Resolved (VObj [("result", VNull)])))
           else Ok (VPromise (Resolved (VObj [("result", VStr "56")])))
       | ByObject _ => Throw (VError TypeError)
       end);
     enable := None; props := [];
     assignable := fun _ => true |}.

(** Every request fails: named requests and [enable()] reject, the object
    style throws. *)
Definition unsupported : Provider :=
  {| on := None; removeListener := None;
     send := Some (fun a =>
       match a with
       | ByName _ => Ok (VPromise (Rejected method_not_found))
       | ByObject _ => Throw method_not_found
       end);
     enable := Some (Ok (VPromise (Rejected method_not_found)));
     props := [];
     assignable := fun _ => true |}.

(** Every request fails by rejection: named requests and the object style
    answer with a promise that rejects. *)
Definition all_reject : Provider :=
  {| on := None; removeListener := None;
     send := Some (fun _ => Ok (VPromise (Rejected method_not_found)));
     enable := Some (Ok (VPromise (Rejected method_not_found)));
     props := [("chainId", VStr "0x38")];
     assignable := fun _ => true |}.

(** No request capability at all, one static property. *)
Definition static_only : Provider :=
  {| on := None; removeListener := None; send := None; enable := None;
     props := [("networkVersion", VStr "97")];
     assignable := fun _ => true |}.

(** A vendor provider answering from its cache. *)
Definition dapper_like : Provider :=
  {| on := None; removeListener := None; send := None; enable := None;
     props := [("isDapper", VBool true);
               ("cachedResults", VObj [("net_version", VObj [("result", VStr "1")])]);
               ("chainId", VStr "0x38")];
     assignable := fun _ => true |}.

(** [send('eth_requestAccounts')] rejects without a reason; [enable()]
    would resolve to one account. *)
Definition rejects_without_reason : Provider :=
  {| on := None; removeListener := None;
     send := Some (fun _ => Ok (VPromise (Rejected VUndef)));
     enable := Some (Ok (VPromise (Resolved (VArr [VStr "0xABC"]))));
     props := [];
     assignable := fun _ => true |}.

(** A full provider: events, the vendor flag of lines 69-71, and one
    authorised account. *)
Definition metamask_like : Provider :=
  {| on := Some (fun _ _ => Ok tt);
     removeListener := Some (fun _ _ => Ok tt);
     send := Some (fun _ => Ok (VPromise (Resolved (VArr [VStr "0xABC"]))));
     enable := Some (Ok (VPromise (Resolved (VArr [VStr "0xABC"]))));
     props := [("isMetaMask", VBool true)];
     assignable := fun _ => true |}.

(** * Vocabulary of the further properties *)

(** ** What an operation leaves alone *)

(** [m] never changes the provider slot, and every event it adds to the
    trace satisfies [P], however it ends. *)
Definition frames {A} (P : event -> bool) (m : M A) : Prop :=
  forall w,
    QuasarChain (fst (m w)) = QuasarChain w
    /\ exists ext, trace (fst (m w)) = (trace w ++ ext)%list /\ forallb P ext = true.

(** The events of [getChainId]: its three requests, reads of data
    properties and diagnostics. *)
Definition chain_event (e : event) : bool :=
  match e with
  | CallSend (ByName m) => String.eqb m "eth_chainId" || String.eqb m "net_version"
  | CallSend (ByObject m) => String.eqb m "net_version"
  | ReadProp _ | Warning _ => true
  | _ => false
  end.

(** The events of [getAccount]: its two [eth_accounts] requests, [enable()]
    and diagnostics. *)
Definition account_event (e : event) : bool :=
  match e with
  | CallSend (ByName m) | CallSend (ByObject m) => String.eqb m "eth_accounts"
  | CallEnable | Warning _ => true
  | _ => false
  end.

(** A call of [on] or of [removeListener]. *)
Definition listener_call (e : event) : bool :=
  match e with
  | CallOn _ _ | CallRemoveListener _ _ => true
  | _ => false
  end.

(** What [activate] does once its prelude has returned: the authorisation
    request, a warning, [enable()]. *)
Definition request_phase (e : event) : bool :=
  match e with
  | CallSend (ByName m) => String.eqb m "eth_requestAccounts"
  | Warning _ | CallEnable => true
  | _ => false
  end.

(** The provider [activate] leaves in the slot: changed by the vendor quirk
    when lines 62-71 return, untouched when they fail. *)
Definition provider_after_activate (p : Provider) : Provider :=
  if prelude_ok p then activated p else p.

(** ** More concrete providers *)

Definition user_denied : value :=
  VObj [("code", VNum (Int 4001)); ("message", VStr "User denied account authorization")].

(** The user refuses the authorisation request; [enable()] would have
    resolved to an account. *)
Definition user_denies : Provider :=
  {| on := Some (fun _ _ => Ok tt);
     removeListener := Some (fun _ _ => Ok tt);
     send := Some (fun _ => Ok (VPromise (Rejected user_denied)));
     enable := Some (Ok (VPromise (Resolved (VArr [VStr "0xABC"]))));
     props := [];
     assignable := fun _ => true |}.

(** A legacy provider: no [send], only [enable()]. *)
Definition legacy_only : Provider :=
  {| on := None; removeListener := None; send := None;
     enable := Some (Ok (VPromise (Resolved (VArr [VStr "0xABC"]))));
     props := [];
     assignable := fun _ => true |}.

(** Every request is answered by a promise that never settles. *)
Definition never_settles : Provider :=
  {| on := None; removeListener := None;
     send := Some (fun _ => Ok (VPromise Pending));
     enable := Some (Ok (VPromise Pending));
     props := [];
     assignable := fun _ => true |}.

(** Named requests are refused; the object style answers with a promise of
    a wrapped result. *)
Definition promise_from_object : Provider :=
  {| on := None; removeListener := None;
     send := Some (fun a =>
       match a with
       | ByName _ => Ok (VPromise (Rejected method_not_found))
       | ByObject _ => Ok (VPromise (Resolved (VObj [("result", VStr "56")])))
       end);
     enable := None; props := [];
     assignable := fun _ => true |}.

(** Two accounts, in the wrapped envelope. *)
Definition two_accounts : Provider :=
  {| on := None; removeListener := None;
     send := Some (fun _ =>
       Ok (VPromise (Resolved (VObj [("result", VArr [VStr "0xA"; VStr "0xB"])]))));
     enable := None; props := [];
     assignable := fun _ => true |}.

(** No account yet: requests resolve to an empty list, [enable()] resolves
    to nothing. *)
Definition no_account : Provider :=
  {| on := None; removeListener := None;
     send := Some (fun _ => Ok (VPromise (Resolved (VArr []))));
     enable := Some (Ok (VPromise (Resolved VUndef)));
     props := [];
     assignable := fun _ => true |}.

(** * Properties *)

(** ** The response normaliser *)

Lemma parseSendReturn_inherits v :
  inherits_hasOwnProperty v = true ->
  parseSendReturn v = Ok (match own_result v with Some r => r | None => v end).
Proof.
  destruct v as [ | | b | n | s | l | fs | c | st]; simpl; try discriminate; try reflexivity.
  intros H. apply negb_true_iff in H. rewrite H.
  destruct (lookup "result" fs); reflexivity.
Qed.

Lemma parseSendReturn_shadowed v :
  inherits_hasOwnProperty v = false ->
  parseSendReturn v = Throw (VError TypeError).
Proof.
  destruct v as [ | | b | n | s | l | fs | c | st]; simpl; try discriminate; try reflexivity.
  intros H. apply negb_false_iff in H. rewrite H. reflexivity.
Qed.

(** C6, counterexample: [undefined] owns no [result] property, yet
    [parseSendReturn(undefined)] does not return it unchanged: the method
    call on [undefined] throws a [TypeError].  The same holds for [null]. *)
Lemma C6_parseSendReturn_undefined_throws :
  own_result VUndef = None /\
  parseSendReturn VUndef = Throw (VError TypeError) /\
  own_result VNull = None /\
  parseSendReturn VNull = Throw (VError TypeError).
Proof. repeat split. Qed.

(** C6, amended: on every input on which the inherited [hasOwnProperty]
    can be called, [parseSendReturn] returns the own [result] property when
    there is one (also when it holds [undefined]) and the input unchanged
    otherwise (arrays included); on the other inputs, which are
    [undefined], [null] and objects shadowing [hasOwnProperty], it throws a
    [TypeError].  It has no effect: its result is a function of its
    argument alone. *)
Theorem C6_parseSendReturn_unwraps :
  forall v,
    parseSendReturn v =
      (if inherits_hasOwnProperty v
       then Ok (match own_result v with Some r => r | None => v end)
       else Throw (VError TypeError))
    /\ (forall r rest, parseSendReturn (VObj (("result", r) :: rest)) =
                       if has_own "hasOwnProperty" rest
                       then Throw (VError TypeError) else Ok r)
    /\ parseSendReturn (VObj [("result", VUndef)]) = Ok VUndef
    /\ (forall l, parseSendReturn (VArr l) = Ok (VArr l))
    /\ (forall s, parseSendReturn (VStr s) = Ok (VStr s)).
Proof.
  intros v. split; [ | split; [ | split; [ | split ] ] ].
  - destruct (inherits_hasOwnProperty v) eqn:E.
    + now apply parseSendReturn_inherits.
    + now apply parseSendReturn_shadowed.
  - intros r rest. simpl. unfold has_own. simpl.
    destruct (lookup "hasOwnProperty" rest); reflexivity.
  - reflexivity.
  - reflexivity.
  - reflexivity.
Qed.

(** ** Provider absent *)

(** C3: with the global slot empty, [activate], [getChainId] and
    [getAccount] fail with [NoBscProviderError] (and touch nothing), while
    [isAuthorized] resolves to [false]. *)
Theorem C3_provider_absent :
  forall (to_number : value -> number) (tr : list event),
    let w := {| QuasarChain := None; trace := tr |} in
    activate w = (w, Throw (VError NoBscProviderError))
    /\ getChainId w = (w, Throw (VError NoBscProviderError))
    /\ getAccount w = (w, Throw (VError NoBscProviderError))
    /\ isAuthorized to_number w = (w, Ok (VBool false)).
Proof. intros to_number tr w. repeat split. Qed.

(** C10: [getProvider] resolves to whatever the global slot holds, for
    every world; with the slot empty it resolves to [undefined] where
    [activate], [getChainId] and [getAccount] fail. *)
Theorem C10_getProvider_never_rejects :
  forall w : world,
    getProvider w = (w, Ok (QuasarChain w))
    /\ (let w0 := {| QuasarChain := None; trace := trace w |} in
        getProvider w0 = (w0, Ok None)
        /\ activate w0 = (w0, Throw (VError NoBscProviderError))
        /\ getChainId w0 = (w0, Throw (VError NoBscProviderError))
        /\ getAccount w0 = (w0, Throw (VError NoBscProviderError))).
Proof. intros w. repeat split. Qed.

(** ** The event bridge *)

(** C8: [handleAccountsChanged] on the empty list emits a deactivation and
    nothing else; on a list with first element [a] it emits one update whose
    only field is [account: a]. *)
Theorem C8_handleAccountsChanged :
  forall w : world,
    handleAccountsChanged [] w =
      ({| QuasarChain := QuasarChain w; trace := trace w ++ [EmitDeactivate] |}, Ok tt)
    /\ (forall a rest,
          handleAccountsChanged (a :: rest) w =
            ({| QuasarChain := QuasarChain w;
                trace := trace w ++
                  [EmitUpdate {| provider := None; chainId := None;
                                 account := Some (VStr a) |}] |}, Ok tt))
    /\ trace (fst (handleAccountsChanged ["0xA"; "0xB"] (initial (QuasarChain w)))) =
         [EmitUpdate {| provider := None; chainId := None;
                        account := Some (VStr "0xA") |}].
Proof. intros w. repeat split. Qed.

(** Running the four calls on a present provider: they are made in order
    up to the first that does not return. *)
Lemma for_each_removeListener p tr f l :
  removeListener p = Some f ->
  for_each call_removeListener l {| QuasarChain := Some p; trace := tr |} =
    ({| QuasarChain := Some p;
        trace := tr ++ fst (emitter_calls CallRemoveListener f l) |},
     snd (emitter_calls CallRemoveListener f l)).
Proof.
  intros Hf. revert tr. induction l as [ | nl l IH]; intros tr.
  - cbn. rewrite app_nil_r. reflexivity.
  - cbn [for_each emitter_calls]. unfold bind at 1. unfold call_removeListener at 1.
    unfold bind, the_provider, log, lift. cbn [QuasarChain trace]. rewrite Hf.
    destruct (f (fst nl) (snd nl)) as [[] | e | ]; cbn [fst snd]; try reflexivity.
    rewrite IH, <- app_assoc. reflexivity.
Qed.

Lemma for_each_on p tr f l :
  on p = Some f ->
  for_each call_on l {| QuasarChain := Some p; trace := tr |} =
    ({| QuasarChain := Some p; trace := tr ++ fst (emitter_calls CallOn f l) |},
     snd (emitter_calls CallOn f l)).
Proof.
  intros Hf. revert tr. induction l as [ | nl l IH]; intros tr.
  - cbn. rewrite app_nil_r. reflexivity.
  - cbn [for_each emitter_calls]. unfold bind at 1. unfold call_on at 1.
    unfold bind, the_provider, log, lift. cbn [QuasarChain trace]. rewrite Hf.
    destruct (f (fst nl) (snd nl)) as [[] | e | ]; cbn [fst snd]; try reflexivity.
    rewrite IH, <- app_assoc. reflexivity.
Qed.

(** An emitter method that returns for the four registrations is called
    for all of them. *)
Lemma emitter_calls_return mk f :
  returns_for_all f = true ->
  emitter_calls mk f subscriptions =
    (map (fun nl => mk (fst nl) (snd nl)) subscriptions, Ok tt).
Proof.
  unfold returns_for_all. generalize subscriptions as l.
  induction l as [ | nl l IH]; [reflexivity | ].
  cbn [forallb emitter_calls map]. intros H.
  apply andb_true_iff in H as [H1 H2].
  destruct (f (fst nl) (snd nl)) as [[] | | ]; try discriminate.
  rewrite (IH H2). reflexivity.
Qed.

(** [deactivate] in any world. *)
Lemma deactivate_run w :
  deactivate w =
    ({| QuasarChain := QuasarChain w;
        trace := trace w ++ fst (removal_outcome w) |},
     snd (removal_outcome w)).
Proof.
  destruct w as [[p | ] tr]; unfold deactivate, removal_outcome, unsubscribe_outcome;
    cbn [QuasarChain trace].
  - destruct (removeListener p) as [f | ] eqn:Hf; cbn [has_member fst snd].
    + apply for_each_removeListener, Hf.
    + rewrite app_nil_r. reflexivity.
  - cbn. rewrite app_nil_r. reflexivity.
Qed.

(** C9, counterexample: on a provider whose [removeListener] returns,
    [deactivate] before any [activate] calls it four times, and a second
    [deactivate] right after calls it four more times.  On a provider whose
    [removeListener] member is there but is not a function, [deactivate]
    throws at the first call. *)
Lemma C9_deactivate_removes_again_or_throws :
  deactivate (initial (Some emitter_only)) =
    ({| QuasarChain := Some emitter_only; trace := removals |}, Ok tt)
  /\ deactivate (fst (deactivate (initial (Some emitter_only)))) =
    ({| QuasarChain := Some emitter_only; trace := removals ++ removals |}, Ok tt)
  /\ deactivate (initial (Some broken_emitter)) =
    ({| QuasarChain := Some broken_emitter;
        trace := [CallRemoveListener "chainChanged" BoundChainChanged] |},
     Throw (VError TypeError)).
Proof. repeat split. Qed.

(** C9, amended: [deactivate] leaves the provider slot as it is and raises
    no error of its own.  When the provider is absent or lacks
    [removeListener], no removal is attempted and [deactivate] returns, on
    a first call, on a repeated call and before any [activate] alike.  When
    the provider has a [removeListener], every call of [deactivate],
    repeated or not, calls it for the four handlers in source order, with
    the event names and handler references of the four registrations of
    [activate]: if the four calls return, all four handlers are
    unregistered and [deactivate] returns; a call that throws ends
    [deactivate] with that failure, the later removals not being made. *)
Theorem C9_deactivate_total :
  forall w : world,
    deactivate w =
      ({| QuasarChain := QuasarChain w;
          trace := trace w ++ fst (removal_outcome w) |},
       snd (removal_outcome w))
    /\ (can_remove w = false -> deactivate w = (w, Ok tt))
    /\ (forall p f, QuasarChain w = Some p -> removeListener p = Some f ->
          returns_for_all f = true ->
          deactivate w =
            ({| QuasarChain := QuasarChain w; trace := trace w ++ removals |}, Ok tt))
    /\ (forall p f e, QuasarChain w = Some p -> removeListener p = Some f ->
          f "chainChanged" BoundChainChanged = Throw e ->
          deactivate w =
            ({| QuasarChain := QuasarChain w;
                trace := trace w
                           ++ [CallRemoveListener "chainChanged" BoundChainChanged] |},
             Throw e))
    /\ removals =
         map (fun e => match e with
                       | CallOn name l => CallRemoveListener name l
                       | _ => e
                       end) registrations.
Proof.
  intros w. split; [apply deactivate_run | ].
  split; [ | split; [ | split; [ | reflexivity ] ] ].
  - destruct w as [[p | ] tr]; unfold can_remove, deactivate; cbn [QuasarChain].
    + intros ->. reflexivity.
    + reflexivity.
  - intros p f Hp Hf Hr. rewrite deactivate_run.
    unfold removal_outcome, unsubscribe_outcome. rewrite Hp, Hf.
    rewrite (emitter_calls_return _ _ Hr). reflexivity.
  - intros p f e Hp Hf He. rewrite deactivate_run.
    unfold removal_outcome, unsubscribe_outcome. rewrite Hp, Hf.
    cbn [emitter_calls subscriptions fst snd]. rewrite He. reflexivity.
Qed.

(** C9 at [emitter_only], repeated, and at [broken_emitter]. *)
Lemma C9_deactivate_emitters :
  deactivate (fst (deactivate (initial (Some emitter_only)))) =
    ({| QuasarChain := Some emitter_only; trace := removals ++ removals |}, Ok tt)
  /\ deactivate (initial (Some broken_emitter)) =
    ({| QuasarChain := Some broken_emitter;
        trace := [CallRemoveListener "chainChanged" BoundChainChanged] |},
     Throw (VError TypeError)).
Proof.
  split.
  - exact (proj1 (proj2 (proj2
             (C9_deactivate_total (fst (deactivate (initial (Some emitter_only)))))))
             emitter_only _ eq_refl eq_refl eq_refl).
  - exact (proj1 (proj2 (proj2 (proj2
             (C9_deactivate_total (initial (Some broken_emitter))))))
             broken_emitter _ (VError TypeError) eq_refl eq_refl eq_refl).
Defined.

(** ** Running the request styles on a present provider *)

Section Present.

Variable p : Provider.
Variable tr : list event.

Let w := {| QuasarChain := Some p; trace := tr |}.

Lemma send_then_run m cb :
  send_then m cb w =
    ({| QuasarChain := Some p; trace := tr ++ [CallSend (ByName m)] |},
     answer_send_then p m cb).
Proof. reflexivity. Qed.

Lemma enable_then_run cb :
  enable_then cb w =
    ({| QuasarChain := Some p; trace := tr ++ [CallEnable] |},
     answer_enable_then p cb).
Proof. reflexivity. Qed.

Lemma send_object_run m :
  send_object m w =
    ({| QuasarChain := Some p; trace := tr ++ [CallSend (ByObject m)] |},
     answer_send_object p m).
Proof. reflexivity. Qed.

Lemma read_prop_run k :
  read_prop k w =
    ({| QuasarChain := Some p; trace := tr ++ [ReadProp k] |},
     Ok (or_undefined (lookup k (props p)))).
Proof. reflexivity. Qed.

End Present.

Lemma guarded_send_then_run p tr m cb msg prev :
  try_catch (send_then m cb) (fun _ => warning msg ;; ret prev)
    {| QuasarChain := Some p; trace := tr |} =
    ({| QuasarChain := Some p;
        trace := tr ++ CallSend (ByName m) :: warned (answer_send_then p m cb) msg |},
     recovered prev (answer_send_then p m cb)).
Proof.
  unfold try_catch. rewrite send_then_run.
  destruct (answer_send_then p m cb); simpl; try reflexivity.
  unfold bind, warning, log, ret. simpl. rewrite <- app_assoc. reflexivity.
Qed.

Lemma guarded_enable_then_run p tr cb msg prev :
  try_catch (enable_then cb) (fun _ => warning msg ;; ret prev)
    {| QuasarChain := Some p; trace := tr |} =
    ({| QuasarChain := Some p;
        trace := tr ++ CallEnable :: warned (answer_enable_then p cb) msg |},
     recovered prev (answer_enable_then p cb)).
Proof.
  unfold try_catch. rewrite enable_then_run.
  destruct (answer_enable_then p cb); simpl; try reflexivity.
  unfold bind, warning, log, ret. simpl. rewrite <- app_assoc. reflexivity.
Qed.

Lemma guarded_send_object_run p tr m msg prev :
  try_catch (r <- send_object m ;; lift (parseSendReturn r))
            (fun _ => warning msg ;; ret prev)
    {| QuasarChain := Some p; trace := tr |} =
    ({| QuasarChain := Some p;
        trace := tr ++ CallSend (ByObject m)
                   :: warned (cbind (answer_send_object p m) parseSendReturn) msg |},
     recovered prev (cbind (answer_send_object p m) parseSendReturn)).
Proof.
  unfold try_catch. unfold bind at 1. rewrite send_object_run.
  destruct (answer_send_object p m) as [r | e | ]; simpl.
  - unfold lift. destruct (parseSendReturn r); simpl; try reflexivity.
    unfold bind, warning, log, ret. simpl. rewrite <- app_assoc. reflexivity.
  - unfold bind, warning, log, ret. simpl. rewrite <- app_assoc. reflexivity.
  - reflexivity.
Qed.

(** ** Awaited values are settled *)

Fixpoint await_settled (x : value) : forall v, await_ x = Ok v -> await_ v = Ok v.
Proof.
  destruct x as [ | | b | n | s | l | fs | c | st]; simpl; intros v H;
    try (injection H as <-; reflexivity).
  destruct st as [r | e | ].
  - exact (await_settled r v H).
  - discriminate.
  - discriminate.
Qed.

Lemma cbind_await_settled (c : completion value) v :
  cbind c await_ = Ok v -> await_ v = Ok v.
Proof.
  destruct c as [x | e | ]; simpl; try discriminate. apply await_settled.
Qed.

Lemma answer_send_then_settled p m cb v :
  answer_send_then p m cb = Ok v -> await_ v = Ok v.
Proof.
  unfold answer_send_then. destruct (send p) as [f | ]; [ | discriminate].
  destruct (f (ByName m)) as [r | e | ]; simpl; try discriminate.
  apply cbind_await_settled.
Qed.

Lemma answer_enable_then_settled p cb v :
  answer_enable_then p cb = Ok v -> await_ v = Ok v.
Proof.
  unfold answer_enable_then. destruct (enable p) as [r0 | ]; [ | discriminate].
  destruct r0 as [r | e | ]; simpl; try discriminate.
  apply cbind_await_settled.
Qed.

(** ** Sequencing *)

Lemma bind_ok {A B} (m : M A) (k : A -> M B) w w' a :
  m w = (w', Ok a) -> bind m k w = k a w'.
Proof. intros H. unfold bind. rewrite H. reflexivity. Qed.

Lemma bind_throw {A B} (m : M A) (k : A -> M B) w w' e :
  m w = (w', Throw e) -> bind m k w = (w', Throw e).
Proof. intros H. unfold bind. rewrite H. reflexivity. Qed.

Lemma bind_hang {A B} (m : M A) (k : A -> M B) w w' :
  m w = (w', Hang) -> bind m k w = (w', Hang).
Proof. intros H. unfold bind. rewrite H. reflexivity. Qed.

(** One statement of the source, run from a known world. *)
Ltac next_by tac :=
  erewrite bind_ok by tac; cbn [negb QuasarChain trace recovered].
Ltac next := next_by reflexivity.

(** ** The stages of [getChainId] *)

(** The value of [chainId] after a guarded attempt that lets the chain go
    on is falsy. *)
Lemma recovered_falsy c prev :
  falls_through c = true -> truthy prev = false ->
  exists v, recovered prev c = Ok v /\ truthy v = false.
Proof.
  destruct c as [v | e | ]; simpl; intros H Hp; try discriminate.
  - exists v. rewrite negb_true_iff in H. split; [reflexivity | assumption].
  - exists prev. split; [reflexivity | assumption].
Qed.

(** [getChainId] up to the last request style it reaches. *)
Lemma getChainId_style1 p tr v :
  chain_style1 p = Ok v -> truthy v = true ->
  getChainId {| QuasarChain := Some p; trace := tr |} =
    ({| QuasarChain := Some p; trace := tr ++ [CallSend (ByName "eth_chainId")] |},
     Ok v).
Proof.
  unfold chain_style1. intros H1 T1. unfold getChainId.
  next.
  next_by ltac:(rewrite guarded_send_then_run, H1; reflexivity).
  rewrite T1; cbn [negb]. next.
  rewrite T1; cbn [negb]. next.
  rewrite T1; cbn [negb]. next.
  unfold async_return, lift. rewrite (answer_send_then_settled _ _ _ _ H1).
  reflexivity.
Qed.

Lemma getChainId_style2 p tr v :
  falls_through (chain_style1 p) = true ->
  chain_style2 p = Ok v -> truthy v = true ->
  getChainId {| QuasarChain := Some p; trace := tr |} =
    ({| QuasarChain := Some p;
        trace := tr ++ CallSend (ByName "eth_chainId")
                   :: warned (chain_style1 p) warn_eth_chainId
                   ++ [CallSend (ByName "net_version")] |},
     Ok v).
Proof.
  unfold chain_style1, chain_style2. intros F1 H2 T2. unfold getChainId.
  destruct (recovered_falsy _ VUndef F1 eq_refl) as (v1 & R1 & T1).
  next.
  next_by ltac:(rewrite guarded_send_then_run, R1; reflexivity).
  rewrite T1; cbn [negb].
  next_by ltac:(rewrite guarded_send_then_run, H2; reflexivity).
  rewrite T2; cbn [negb]. next.
  rewrite T2; cbn [negb]. next.
  unfold async_return, lift. rewrite (answer_send_then_settled _ _ _ _ H2).
  cbn [warned]. rewrite <- app_assoc. reflexivity.
Qed.

Lemma getChainId_style3 p tr v :
  falls_through (chain_style1 p) = true ->
  falls_through (chain_style2 p) = true ->
  chain_style3 p = Ok v -> truthy v = true ->
  getChainId {| QuasarChain := Some p; trace := tr |} =
    ({| QuasarChain := Some p;
        trace := tr ++ CallSend (ByName "eth_chainId")
                   :: warned (chain_style1 p) warn_eth_chainId
                   ++ CallSend (ByName "net_version")
                   :: warned (chain_style2 p) warn_net_version
                   ++ [CallSend (ByObject "net_version")] |},
     await_ v).
Proof.
  unfold chain_style1, chain_style2, chain_style3. intros F1 F2 H3 T3.
  unfold getChainId.
  destruct (recovered_falsy _ VUndef F1 eq_refl) as (v1 & R1 & T1).
  destruct (recovered_falsy _ v1 F2 T1) as (v2 & R2 & T2).
  next.
  next_by ltac:(rewrite guarded_send_then_run, R1; reflexivity).
  rewrite T1; cbn [negb].
  next_by ltac:(rewrite guarded_send_then_run, R2; reflexivity).
  rewrite T2; cbn [negb].
  next_by ltac:(rewrite guarded_send_object_run, H3; reflexivity).
  rewrite T3; cbn [negb]. next.
  unfold async_return, lift.
  cbn [warned]. rewrite <- !app_assoc. reflexivity.
Qed.

Lemma first_truthy_prop_run p rest : forall k tr,
  first_truthy_prop k rest {| QuasarChain := Some p; trace := tr |} =
    ({| QuasarChain := Some p; trace := tr ++ map ReadProp (consulted p k rest) |},
     Ok (scan p k rest)).
Proof.
  induction rest as [ | k' rest' IH]; intros k tr.
  - reflexivity.
  - cbn [first_truthy_prop scan consulted].
    erewrite bind_ok by apply read_prop_run.
    fold (static_value p k).
    destruct (truthy (static_value p k)).
    + reflexivity.
    + rewrite IH. cbn [map]. rewrite <- app_assoc. reflexivity.
Qed.

(** The scan of lines 131-135 yields the first truthy value in the listed
    order, and the value of [_chainId] when none is truthy. *)
Lemma scan_first_truthy p :
  scan p "chainId" ["netVersion"; "networkVersion"; "_chainId"] =
    match find truthy (map (static_value p) static_names) with
    | Some v => v
    | None => static_value p "_chainId"
    end.
Proof.
  cbn [scan static_names map find].
  destruct (truthy (static_value p "chainId")); [reflexivity | ].
  destruct (truthy (static_value p "netVersion")); [reflexivity | ].
  destruct (truthy (static_value p "networkVersion")); [reflexivity | ].
  destruct (truthy (static_value p "_chainId")); reflexivity.
Qed.

Lemma static_chain_id_vendor p tr :
  truthy (static_value p "isDapper") = true ->
  static_chain_id {| QuasarChain := Some p; trace := tr |} =
    ({| QuasarChain := Some p;
        trace := tr ++ [ReadProp "isDapper"; ReadProp "cachedResults"] |},
     cbind (get_prop (static_value p "cachedResults") "net_version") parseSendReturn).
Proof.
  intros D. unfold static_chain_id.
  erewrite bind_ok by apply read_prop_run.
  fold (static_value p "isDapper"). rewrite D.
  erewrite bind_ok by apply read_prop_run.
  fold (static_value p "cachedResults").
  unfold bind, lift. cbn [QuasarChain trace]. rewrite <- app_assoc.
  destruct (get_prop (static_value p "cachedResults") "net_version"); reflexivity.
Qed.

Lemma static_chain_id_generic p tr :
  truthy (static_value p "isDapper") = false ->
  static_chain_id {| QuasarChain := Some p; trace := tr |} =
    ({| QuasarChain := Some p;
        trace := tr ++ ReadProp "isDapper"
                   :: map ReadProp (consulted p "chainId"
                                      ["netVersion"; "networkVersion"; "_chainId"]) |},
     Ok (scan p "chainId" ["netVersion"; "networkVersion"; "_chainId"])).
Proof.
  intros D. unfold static_chain_id.
  erewrite bind_ok by apply read_prop_run.
  fold (static_value p "isDapper"). rewrite D.
  rewrite first_truthy_prop_run. rewrite <- app_assoc. reflexivity.
Qed.

(** [getChainId] when it reaches the static fallback. *)
Lemma getChainId_static p tr :
  falls_through (chain_style1 p) = true ->
  falls_through (chain_style2 p) = true ->
  falls_through (chain_style3 p) = true ->
  getChainId {| QuasarChain := Some p; trace := tr |} =
    (let (w', c) := static_chain_id
                      {| QuasarChain := Some p; trace := tr ++ chain_requests p |} in
     (w', cbind c await_)).
Proof.
  unfold chain_requests, chain_style1, chain_style2, chain_style3. intros F1 F2 F3.
  unfold getChainId.
  destruct (recovered_falsy _ VUndef F1 eq_refl) as (v1 & R1 & T1).
  destruct (recovered_falsy _ v1 F2 T1) as (v2 & R2 & T2).
  destruct (recovered_falsy _ v2 F3 T2) as (v3 & R3 & T3).
  next.
  next_by ltac:(rewrite guarded_send_then_run, R1; reflexivity).
  rewrite T1; cbn [negb].
  next_by ltac:(rewrite guarded_send_then_run, R2; reflexivity).
  rewrite T2; cbn [negb].
  next_by ltac:(rewrite guarded_send_object_run, R3; reflexivity).
  rewrite T3; cbn [negb].
  rewrite <- !app_assoc. cbn [app].
  unfold bind, async_return, lift.
  destruct (static_chain_id _) as [w' [v | e | ]]; reflexivity.
Qed.

(** ** The stages of [getAccount] *)

Lemma first_of_object_run p tr m :
  (r <- send_object m ;; x <- lift (parseSendReturn r) ;; lift (get_prop x "0"))
    {| QuasarChain := Some p; trace := tr |} =
    ({| QuasarChain := Some p; trace := tr ++ [CallSend (ByObject m)] |},
     cbind (answer_send_object p m) first_of_parsed).
Proof.
  unfold bind at 1. rewrite send_object_run.
  destruct (answer_send_object p m) as [r | e | ]; try reflexivity.
  unfold bind, lift, first_of_parsed. cbn [cbind].
  destruct (parseSendReturn r); reflexivity.
Qed.

(** [getAccount] when the two guarded styles let the chain go on: the
    outcome is that of the last style. *)
Lemma getAccount_last_style p tr :
  falls_through (account_style1 p) = true ->
  falls_through (account_style2 p) = true ->
  getAccount {| QuasarChain := Some p; trace := tr |} =
    ({| QuasarChain := Some p;
        trace := tr ++ CallSend (ByName "eth_accounts")
                   :: warned (account_style1 p) warn_eth_accounts
                   ++ CallEnable
                   :: warned (account_style2 p) warn_enable
                   ++ [CallSend (ByObject "eth_accounts")] |},
     cbind (account_style3 p) await_).
Proof.
  unfold account_style1, account_style2, account_style3. intros F1 F2.
  unfold getAccount.
  destruct (recovered_falsy _ VUndef F1 eq_refl) as (v1 & R1 & T1).
  destruct (recovered_falsy _ v1 F2 T1) as (v2 & R2 & T2).
  next.
  next_by ltac:(rewrite guarded_send_then_run, R1; reflexivity).
  rewrite T1; cbn [negb].
  next_by ltac:(rewrite guarded_enable_then_run, R2; reflexivity).
  rewrite T2; cbn [negb].
  unfold bind at 1. rewrite first_of_object_run.
  rewrite <- !app_assoc. cbn [app].
  destruct (cbind (answer_send_object p "eth_accounts") first_of_parsed);
    reflexivity.
Qed.

(** ** The stages of [activate] *)

Lemma auth_style1_activated p : auth_style1 (activated p) = auth_style1 p.
Proof. unfold activated. destruct (truthy _); reflexivity. Qed.

Lemma auth_style2_activated p : auth_style2 (activated p) = auth_style2 p.
Proof. unfold activated. destruct (truthy _); reflexivity. Qed.

Lemma request_accounts_run p tr :
  request_accounts {| QuasarChain := Some p; trace := tr |} =
    ({| QuasarChain := Some p;
        trace := tr ++ CallSend (ByName "eth_requestAccounts")
                   :: match classify (auth_style1 p) with
                      | Ok _ => warned (auth_style1 p) warn_requestAccounts
                      | _ => []
                      end |},
     classify (auth_style1 p)).
Proof.
  unfold request_accounts, try_catch, auth_style1. rewrite send_then_run.
  destruct (answer_send_then p "eth_requestAccounts" first_of_parsed)
    as [a | error | ]; cbn [classify warned]; try reflexivity.
  unfold bind at 1. unfold lift. 
  destruct (get_prop error "code") as [code | e | ]; cbn [cbind]; try reflexivity.
  destruct (is_4001 code); try reflexivity.
  unfold bind, warning, log, ret. cbn [QuasarChain trace].
  rewrite <- app_assoc. reflexivity.
Qed.

(** Lines 62-67 on a present provider. *)
Lemma subscribe_run p tr :
  (if has_member (on p) then for_each call_on subscriptions else ret tt)
    {| QuasarChain := Some p; trace := tr |} =
    ({| QuasarChain := Some p; trace := tr ++ fst (subscribe_outcome p) |},
     snd (subscribe_outcome p)).
Proof.
  unfold subscribe_outcome. destruct (on p) as [f | ] eqn:Hf; cbn [has_member].
  - apply for_each_on, Hf.
  - cbn. rewrite app_nil_r. reflexivity.
Qed.

(** [activate] on a present provider whose prelude returns: the prelude,
    then the two styles. *)
Lemma activate_prelude_run p tr :
  prelude_ok p = true ->
  activate {| QuasarChain := Some p; trace := tr |} =
    (account <- request_accounts ;;
     account <- (if negb (truthy account)
                 then enable_then guarded_first_of_parsed
                 else ret account) ;;
     (fun w =>
        (w, Ok {| provider := Some (QuasarChain w); chainId := None;
                  account := if truthy account then Some account else None |})))
      {| QuasarChain := Some (activated p); trace := tr ++ activation_prelude p |}.
Proof.
  unfold prelude_ok, activation_prelude, prelude_result, activated. intros H.
  unfold activate. next. next.
  pose proof (subscribe_run p tr) as Hon.
  destruct (subscribe_outcome p) as [calls [[] | e | ]]; try discriminate.
  cbn [fst snd] in Hon.
  next_by ltac:(apply Hon).
  next_by ltac:(apply read_prop_run).
  fold (static_value p "isMetaMask").
  destruct (truthy (static_value p "isMetaMask")); cbn [fst snd] in *.
  - destruct (assignable p "autoRefreshOnNetworkChange") eqn:W; try discriminate.
    erewrite bind_ok; [ | unfold write_prop, bind, the_provider, log;
                          cbn [QuasarChain trace]; rewrite W; reflexivity ].
    cbn [negb QuasarChain trace]. rewrite <- !app_assoc. reflexivity.
  - next. rewrite <- !app_assoc. reflexivity.
Qed.

(** [activate] on a present provider whose prelude does not return:
    [activate] ends there, before any request, and the provider is as it
    was. *)
Lemma activate_prelude_failure p tr :
  prelude_ok p = false ->
  activate {| QuasarChain := Some p; trace := tr |} =
    ({| QuasarChain := Some p; trace := tr ++ activation_prelude p |},
     match snd (prelude_result p) with
     | Throw e => Throw e
     | _ => Hang
     end).
Proof.
  unfold prelude_ok, activation_prelude, prelude_result. intros H.
  unfold activate. next. next.
  pose proof (subscribe_run p tr) as Hon.
  destruct (subscribe_outcome p) as [calls [[] | e | ]]; cbn [fst snd] in Hon.
  - next_by ltac:(apply Hon).
    next_by ltac:(apply read_prop_run).
    fold (static_value p "isMetaMask").
    destruct (truthy (static_value p "isMetaMask")); cbn [fst snd] in *;
      try discriminate.
    destruct (assignable p "autoRefreshOnNetworkChange") eqn:W; try discriminate.
    erewrite bind_throw; [ | unfold write_prop, bind, the_provider, log, throw;
                             cbn [QuasarChain trace]; rewrite W; reflexivity ].
    rewrite <- !app_assoc. reflexivity.
  - erewrite bind_throw by apply Hon. reflexivity.
  - erewrite bind_hang by apply Hon. reflexivity.
Qed.

Lemma activate_first_style p tr a :
  prelude_ok p = true ->
  classify (auth_style1 p) = Ok a -> truthy a = true ->
  activate {| QuasarChain := Some p; trace := tr |} =
    ({| QuasarChain := Some (activated p);
        trace := tr ++ activation_prelude p
                   ++ [CallSend (ByName "eth_requestAccounts")] |},
     Ok (activation p a)).
Proof.
  intros P C1 T1. rewrite (activate_prelude_run p tr P).
  next_by ltac:(rewrite request_accounts_run, auth_style1_activated, C1; reflexivity).
  rewrite T1; cbn [negb]. next.
  unfold activation. rewrite T1.
  destruct (auth_style1 p) as [x | x | ]; cbn [classify warned] in *;
    try discriminate; [ | destruct (get_prop x "code") as [c | | ]; cbn [cbind] in C1;
      try discriminate; destruct (is_4001 c); try discriminate;
      injection C1 as <-; discriminate ].
  rewrite <- app_assoc. reflexivity.
Qed.

Lemma activate_uncaught p tr e :
  prelude_ok p = true ->
  classify (auth_style1 p) = Throw e ->
  activate {| QuasarChain := Some p; trace := tr |} =
    ({| QuasarChain := Some (activated p);
        trace := tr ++ activation_prelude p
                   ++ [CallSend (ByName "eth_requestAccounts")] |},
     Throw e).
Proof.
  intros P C1. rewrite (activate_prelude_run p tr P).
  erewrite bind_throw
    by (rewrite request_accounts_run, auth_style1_activated, C1; reflexivity).
  rewrite <- app_assoc. reflexivity.
Qed.

Lemma activate_pending p tr :
  prelude_ok p = true ->
  classify (auth_style1 p) = Hang ->
  activate {| QuasarChain := Some p; trace := tr |} =
    ({| QuasarChain := Some (activated p);
        trace := tr ++ activation_prelude p
                   ++ [CallSend (ByName "eth_requestAccounts")] |},
     Hang).
Proof.
  intros P C1. rewrite (activate_prelude_run p tr P).
  erewrite bind_hang
    by (rewrite request_accounts_run, auth_style1_activated, C1; reflexivity).
  rewrite <- app_assoc. reflexivity.
Qed.

Lemma activate_second_style p tr a :
  prelude_ok p = true ->
  classify (auth_style1 p) = Ok a -> truthy a = false ->
  activate {| QuasarChain := Some p; trace := tr |} =
    ({| QuasarChain := Some (activated p);
        trace := tr ++ activation_prelude p
                   ++ CallSend (ByName "eth_requestAccounts")
                   :: warned (auth_style1 p) warn_requestAccounts
                   ++ [CallEnable] |},
     match auth_style2 p with
     | Ok a2 => Ok (activation p a2)
     | Throw e => Throw e
     | Hang => Hang
     end).
Proof.
  intros P C1 T1. rewrite (activate_prelude_run p tr P).
  next_by ltac:(rewrite request_accounts_run, auth_style1_activated, C1; reflexivity).
  rewrite T1; cbn [negb].
  unfold bind at 1. rewrite enable_then_run.
  fold (auth_style2 (activated p)). rewrite auth_style2_activated.
  rewrite <- !app_assoc. cbn [app].
  destruct (auth_style2 p); reflexivity.
Qed.

(** ** The fallback chain of [getChainId] (claims C1 and C7) *)

(** C1, counterexample: the first style resolves (to [{ result: null }],
    normalised to [null]), and yet the second style is invoked and decides
    the result. *)
Lemma C1_resolved_null_falls_through :
  chain_style1 null_then_56 = Ok VNull
  /\ getChainId (initial (Some null_then_56)) =
       ({| QuasarChain := Some null_then_56;
           trace := [CallSend (ByName "eth_chainId"); CallSend (ByName "net_version")] |},
        Ok (VStr "56")).
Proof. split; reflexivity. Qed.

(** C1, amended: the chain of [getChainId] stops at the first request
    style that yields a truthy value: no later request is sent and no
    static property is read, and that value is the result (for the
    synchronous third style, what it settles to).  A style that fails, or
    that resolves to a falsy value, lets the chain go on.  In particular,
    when the [eth_chainId] send rejects and the [net_version] send resolves
    to [{ result: "56" }], [getChainId] resolves to ["56"] after exactly
    these two requests. *)
Theorem C1_getChainId_stops_at_first_value :
  forall (p : Provider) (tr : list event),
    let w := {| QuasarChain := Some p; trace := tr |} in
    (forall v, chain_style1 p = Ok v -> truthy v = true ->
       getChainId w =
         ({| QuasarChain := Some p;
             trace := tr ++ [CallSend (ByName "eth_chainId")] |}, Ok v))
    /\ (forall v, falls_through (chain_style1 p) = true ->
          chain_style2 p = Ok v -> truthy v = true ->
          getChainId w =
            ({| QuasarChain := Some p;
                trace := tr ++ CallSend (ByName "eth_chainId")
                           :: warned (chain_style1 p) warn_eth_chainId
                           ++ [CallSend (ByName "net_version")] |}, Ok v))
    /\ (forall v, falls_through (chain_style1 p) = true ->
          falls_through (chain_style2 p) = true ->
          chain_style3 p = Ok v -> truthy v = true ->
          getChainId w =
            ({| QuasarChain := Some p;
                trace := tr ++ CallSend (ByName "eth_chainId")
                           :: warned (chain_style1 p) warn_eth_chainId
                           ++ CallSend (ByName "net_version")
                           :: warned (chain_style2 p) warn_net_version
                           ++ [CallSend (ByObject "net_version")] |}, await_ v))
    /\ (forall f e, send p = Some f ->
          f (ByName "eth_chainId") = Ok (VPromise (Rejected e)) ->
          f (ByName "net_version") =
            Ok (VPromise (Resolved (VObj [("result", VStr "56")]))) ->
          getChainId w =
            ({| QuasarChain := Some p;
                trace := tr ++ [CallSend (ByName "eth_chainId");
                                Warning warn_eth_chainId;
                                CallSend (ByName "net_version")] |},
             Ok (VStr "56"))).
Proof.
  intros p tr w. split; [ | split; [ | split ] ].
  - intros v. apply getChainId_style1.
  - intros v. apply getChainId_style2.
  - intros v. apply getChainId_style3.
  - intros f e Hs H1 H2.
    assert (S1 : chain_style1 p = Throw e).
    { unfold chain_style1, answer_send_then. rewrite Hs, H1. reflexivity. }
    assert (S2 : chain_style2 p = Ok (VStr "56")).
    { unfold chain_style2, answer_send_then. rewrite Hs, H2. reflexivity. }
    unfold w. rewrite (getChainId_style2 p tr (VStr "56")).
    + rewrite S1. reflexivity.
    + rewrite S1. reflexivity.
    + exact S2.
    + reflexivity.
Qed.

(** C1 at [rejects_then_56]. *)
Lemma C1_getChainId_rejects_then_56 :
  getChainId (initial (Some rejects_then_56)) =
    ({| QuasarChain := Some rejects_then_56;
        trace := [CallSend (ByName "eth_chainId");
                  Warning warn_eth_chainId;
                  CallSend (ByName "net_version")] |},
     Ok (VStr "56")).
Proof.
  exact (proj2 (proj2 (proj2 (C1_getChainId_stops_at_first_value rejects_then_56 [])))
           _ method_not_found eq_refl eq_refl eq_refl).
Defined.

(** C7: when the three request styles of [getChainId] all fail (or yield
    nothing), the result is decided by the static fallback.  With a truthy
    [isDapper] it is the normalised [cachedResults.net_version], and none of
    [chainId], [netVersion], [networkVersion], [_chainId] is read.  Otherwise
    these four are read in that order up to the first truthy one, which is
    the result; when none is truthy the result is the value of
    [_chainId].  In both cases [getChainId] resolves to that value as an
    [async] function does ([await_]). *)
Theorem C7_static_fallback :
  forall (p : Provider) (tr : list event),
    falls_through (chain_style1 p) = true ->
    falls_through (chain_style2 p) = true ->
    falls_through (chain_style3 p) = true ->
    let w := {| QuasarChain := Some p; trace := tr |} in
    (truthy (static_value p "isDapper") = true ->
       getChainId w =
         ({| QuasarChain := Some p;
             trace := tr ++ chain_requests p
                        ++ [ReadProp "isDapper"; ReadProp "cachedResults"] |},
          cbind (cbind (get_prop (static_value p "cachedResults") "net_version")
                       parseSendReturn) await_))
    /\ (truthy (static_value p "isDapper") = false ->
          getChainId w =
            ({| QuasarChain := Some p;
                trace := tr ++ chain_requests p
                           ++ ReadProp "isDapper"
                           :: map ReadProp
                                (consulted p "chainId"
                                   ["netVersion"; "networkVersion"; "_chainId"]) |},
             await_ match find truthy (map (static_value p) static_names) with
                    | Some v => v
                    | None => static_value p "_chainId"
                    end)).
Proof.
  intros p tr F1 F2 F3 w. unfold w.
  rewrite (getChainId_static p tr F1 F2 F3). split; intros D.
  - rewrite (static_chain_id_vendor _ _ D). rewrite <- app_assoc. reflexivity.
  - rewrite (static_chain_id_generic _ _ D). rewrite <- app_assoc.
    rewrite scan_first_truthy. reflexivity.
Qed.

(** C7 at [static_only]: the scan stops at [networkVersion]. *)
Lemma C7_static_only_networkVersion :
  getChainId (initial (Some static_only)) =
    ({| QuasarChain := Some static_only;
        trace := [CallSend (ByName "eth_chainId"); Warning warn_eth_chainId;
                  CallSend (ByName "net_version"); Warning warn_net_version;
                  CallSend (ByObject "net_version"); Warning warn_net_version_v2;
                  ReadProp "isDapper"; ReadProp "chainId"; ReadProp "netVersion";
                  ReadProp "networkVersion"] |},
     Ok (VStr "97")).
Proof.
  exact (proj2 (C7_static_fallback static_only [] eq_refl eq_refl eq_refl) eq_refl).
Defined.

(** The vendor cache wins over a [chainId] property that is set. *)
Example getChainId_dapper_like :
  getChainId (initial (Some dapper_like)) =
    ({| QuasarChain := Some dapper_like;
        trace := [CallSend (ByName "eth_chainId"); Warning warn_eth_chainId;
                  CallSend (ByName "net_version"); Warning warn_net_version;
                  CallSend (ByObject "net_version"); Warning warn_net_version_v2;
                  ReadProp "isDapper"; ReadProp "cachedResults"] |},
     Ok (VStr "1")).
Proof. reflexivity. Qed.

(** ** What reaches the caller of [getAccount] and [getChainId] *)

(** C4: on [unsupported] every request style of [getAccount] fails, and
    [getAccount] does not return an empty result: the failure of the last
    style, the object-style send of line 165, which no [try] encloses,
    reaches the caller.  On [all_reject] every request style of
    [getChainId] fails, the third by a promise that rejects; that promise
    is not awaited inside the [try] of lines 120-124, so it becomes
    [chainId], no static property is read, and [getChainId] rejects with
    its reason. *)
Theorem C4_last_style_failure_reaches_caller :
  (account_style1 unsupported = Throw method_not_found
   /\ account_style2 unsupported = Throw method_not_found
   /\ account_style3 unsupported = Throw method_not_found
   /\ getAccount (initial (Some unsupported)) =
        ({| QuasarChain := Some unsupported;
            trace := [CallSend (ByName "eth_accounts"); Warning warn_eth_accounts;
                      CallEnable; Warning warn_enable;
                      CallSend (ByObject "eth_accounts")] |},
         Throw method_not_found))
  /\ (chain_style1 all_reject = Throw method_not_found
      /\ chain_style2 all_reject = Throw method_not_found
      /\ answer_send_object all_reject "net_version" =
           Ok (VPromise (Rejected method_not_found))
      /\ getChainId (initial (Some all_reject)) =
           ({| QuasarChain := Some all_reject;
               trace := [CallSend (ByName "eth_chainId"); Warning warn_eth_chainId;
                         CallSend (ByName "net_version"); Warning warn_net_version;
                         CallSend (ByObject "net_version")] |},
            Throw method_not_found)).
Proof. repeat split. Qed.

(** With the provider present, the failure of a guarded request style is
    not raised to the caller; it leaves a warning and the chain goes on.
    In [getAccount] the first two styles are guarded: when both fail, the
    outcome of [getAccount] is the outcome of the last style, the
    object-style send.  In [getChainId] all three are: when the first two
    fail and the third throws inside its [try] (the send throws, or the
    normaliser throws on what it returned) and the vendor flag is not set,
    [getChainId] resolves to what the scan of the static properties
    yields, which is [undefined] when the provider has none. *)
Theorem guarded_failures_absorbed :
  forall (p : Provider) (tr : list event),
    let w := {| QuasarChain := Some p; trace := tr |} in
    (forall e1 e2,
       account_style1 p = Throw e1 -> account_style2 p = Throw e2 ->
       getAccount w =
         ({| QuasarChain := Some p;
             trace := tr ++ [CallSend (ByName "eth_accounts");
                             Warning warn_eth_accounts;
                             CallEnable; Warning warn_enable;
                             CallSend (ByObject "eth_accounts")] |},
          cbind (account_style3 p) await_))
    /\ (forall e1 e2 e3,
          chain_style1 p = Throw e1 -> chain_style2 p = Throw e2 ->
          chain_style3 p = Throw e3 ->
          truthy (static_value p "isDapper") = false ->
          getChainId w =
            ({| QuasarChain := Some p;
                trace := tr ++ [CallSend (ByName "eth_chainId");
                                Warning warn_eth_chainId;
                                CallSend (ByName "net_version");
                                Warning warn_net_version;
                                CallSend (ByObject "net_version");
                                Warning warn_net_version_v2;
                                ReadProp "isDapper"]
                           ++ map ReadProp
                                (consulted p "chainId"
                                   ["netVersion"; "networkVersion"; "_chainId"]) |},
             await_ (scan p "chainId" ["netVersion"; "networkVersion"; "_chainId"]))
          /\ (props p = [] -> snd (getChainId w) = Ok VUndef)).
Proof.
  intros p tr w. split.
  - intros e1 e2 A1 A2. unfold w. rewrite getAccount_last_style.
    + rewrite A1, A2. reflexivity.
    + rewrite A1. reflexivity.
    + rewrite A2. reflexivity.
  - intros e1 e2 e3 S1 S2 S3 D.
    assert (E : getChainId w =
      ({| QuasarChain := Some p;
          trace := tr ++ [CallSend (ByName "eth_chainId"); Warning warn_eth_chainId;
                          CallSend (ByName "net_version"); Warning warn_net_version;
                          CallSend (ByObject "net_version");
                          Warning warn_net_version_v2; ReadProp "isDapper"]
                     ++ map ReadProp
                          (consulted p "chainId"
                             ["netVersion"; "networkVersion"; "_chainId"]) |},
       await_ (scan p "chainId" ["netVersion"; "networkVersion"; "_chainId"]))).
    { unfold w. rewrite getChainId_static.
      - rewrite (static_chain_id_generic _ _ D). unfold chain_requests.
        rewrite S1, S2, S3. cbn [warned cbind]. rewrite <- app_assoc. reflexivity.
      - rewrite S1. reflexivity.
      - rewrite S2. reflexivity.
      - rewrite S3. reflexivity. }
    split; [exact E | ].
    intros Hp. rewrite E. unfold scan, static_value. rewrite Hp. reflexivity.
Qed.

(** At [unsupported]: the first two failures of [getAccount] are absorbed
    and the third is its outcome; [getChainId] absorbs all three and finds
    no static property. *)
Lemma guarded_failures_absorbed_unsupported :
  getAccount (initial (Some unsupported)) =
    ({| QuasarChain := Some unsupported;
        trace := [CallSend (ByName "eth_accounts"); Warning warn_eth_accounts;
                  CallEnable; Warning warn_enable;
                  CallSend (ByObject "eth_accounts")] |},
     Throw method_not_found)
  /\ snd (getChainId (initial (Some unsupported))) = Ok VUndef.
Proof.
  split.
  - exact (proj1 (guarded_failures_absorbed unsupported [])
             method_not_found method_not_found eq_refl eq_refl).
  - exact (proj2 (proj2 (guarded_failures_absorbed unsupported [])
             method_not_found method_not_found method_not_found
             eq_refl eq_refl eq_refl eq_refl) eq_refl).
Defined.

(** ** The outcomes of [activate] *)

Lemma get_prop_readable v k :
  v <> VUndef -> v <> VNull -> exists x, get_prop v k = Ok x.
Proof.
  intros U N.
  destruct v as [ | | b | n | s | l | fs | c | st]; cbn [get_prop];
    try congruence; try (eexists; reflexivity).
  - destruct (String.eqb k "length"); [eexists; reflexivity | ].
    destruct (index_of_key k) as [i | ]; [ | eexists; reflexivity].
    destruct (char_at i s); eexists; reflexivity.
  - destruct (String.eqb k "length"); [eexists; reflexivity | ].
    destruct (index_of_key k); eexists; reflexivity.
  - destruct (String.eqb k "name"); [eexists; reflexivity | ].
    destruct (String.eqb k "message"); eexists; reflexivity.
Qed.

(** With a readable reason the [catch] block has three outcomes: the
    user-rejected error, [undefined] after a warning, or the value of the
    first style. *)
Lemma classify_readable c :
  reason_readable c = true ->
  (user_rejected c = true /\ classify c = Throw (VError UserRejectedRequestError))
  \/ (user_rejected c = false /\ exists a, classify c = Ok a
        /\ (forall a', c = Ok a' -> a = a'))
  \/ (user_rejected c = false /\ c = Hang /\ classify c = Hang).
Proof.
  destruct c as [a | error | ]; cbn [reason_readable classify user_rejected]; intros R.
  - right. left. split; [reflexivity | ]. exists a. split; [reflexivity | ].
    intros a' H. injection H as <-. reflexivity.
  - destruct (get_prop_readable error "code") as [code Hc].
    + intros ->. discriminate.
    + intros ->. discriminate.
    + rewrite Hc. cbn [cbind]. destruct (is_4001 code).
      * left. split; reflexivity.
      * right. left. split; [reflexivity | ]. exists VUndef.
        split; [reflexivity | ]. intros a' H. discriminate.
  - right. right. repeat split.
Qed.

(** The user-rejection short circuit (lines 80-82): [enable()] is not
    called. *)
Lemma activate_user_rejected p tr :
  prelude_ok p = true ->
  user_rejected (auth_style1 p) = true ->
  activate {| QuasarChain := Some p; trace := tr |} =
    ({| QuasarChain := Some (activated p);
        trace := tr ++ activation_prelude p
                   ++ [CallSend (ByName "eth_requestAccounts")] |},
     Throw (VError UserRejectedRequestError)).
Proof.
  intros P U. apply (activate_uncaught p tr _ P).
  destruct (auth_style1 p) as [a | error | ]; cbn [user_rejected classify] in *;
    try discriminate.
  destruct (get_prop error "code") as [code | e | ]; try discriminate.
  cbn [cbind]. rewrite U. reflexivity.
Qed.

(** Any other failure of the first style whose reason can be inspected
    leaves a warning and goes on to [enable()] (lines 83-89). *)
Lemma activate_other_failure p tr error :
  prelude_ok p = true ->
  auth_style1 p = Throw error ->
  error <> VUndef -> error <> VNull ->
  user_rejected (auth_style1 p) = false ->
  activate {| QuasarChain := Some p; trace := tr |} =
    ({| QuasarChain := Some (activated p);
        trace := tr ++ activation_prelude p
                   ++ [CallSend (ByName "eth_requestAccounts");
                       Warning warn_requestAccounts;
                       CallEnable] |},
     match auth_style2 p with
     | Ok a2 => Ok (activation p a2)
     | Throw e => Throw e
     | Hang => Hang
     end).
Proof.
  intros P H U N R.
  rewrite (activate_second_style p tr VUndef P).
  - rewrite H. reflexivity.
  - rewrite H in *. cbn [classify user_rejected] in *.
    destruct (get_prop_readable error "code" U N) as [code Hc].
    rewrite Hc in *. cbn [cbind]. rewrite R. reflexivity.
  - reflexivity.
Qed.

(** C5, counterexample: the provider is present, the first style is
    refused with a code other than [4001], and [enable()] rejects:
    [activate] fails with the reason of [enable()], which is neither of
    the two named errors. *)
Lemma C5_activate_enable_failure_propagates :
  user_rejected (auth_style1 unsupported) = false
  /\ activate (initial (Some unsupported)) =
       ({| QuasarChain := Some unsupported;
           trace := [ReadProp "isMetaMask";
                     CallSend (ByName "eth_requestAccounts");
                     Warning warn_requestAccounts;
                     CallEnable] |},
        Throw method_not_found).
Proof. split; reflexivity. Qed.

(** C5, amended: with the provider present and a first style that does not
    reject with [undefined] or [null], [activate] resolves whenever its
    prelude (the [on] calls and the vendor quirk of lines 62-71) returns
    and then the first style yields an account or [enable()] resolves; the
    result is the provider (after the vendor quirk) and the account, the
    account field being present only when the account is truthy.  The
    failures it raises are the failure of the prelude, raised before any
    request (an [on] call that throws, or a provider that does not accept
    the assignment of line 70), the user-rejected error, when the first
    style fails with code [4001], and the failure of [enable()] itself,
    which is passed on unchanged. *)
Theorem C5_activate_outcomes :
  forall (p : Provider) (tr : list event),
    reason_readable (auth_style1 p) = true ->
    let w := {| QuasarChain := Some p; trace := tr |} in
    (prelude_ok p = false ->
       activate w =
         ({| QuasarChain := Some p; trace := tr ++ activation_prelude p |},
          match snd (prelude_result p) with
          | Throw e => Throw e
          | _ => Hang
          end))
    /\ (forall a, prelude_ok p = true ->
          auth_style1 p = Ok a -> truthy a = true ->
          snd (activate w) =
            Ok {| provider := Some (Some (activated p)); chainId := None;
                  account := Some a |})
    /\ (forall a2, prelude_ok p = true ->
          user_rejected (auth_style1 p) = false ->
          falls_through (auth_style1 p) = true ->
          auth_style2 p = Ok a2 ->
          snd (activate w) =
            Ok {| provider := Some (Some (activated p)); chainId := None;
                  account := if truthy a2 then Some a2 else None |})
    /\ (forall e, snd (activate w) = Throw e ->
          (prelude_ok p = false /\ snd (prelude_result p) = Throw e)
          \/ (prelude_ok p = true
              /\ e = VError UserRejectedRequestError
              /\ user_rejected (auth_style1 p) = true)
          \/ (prelude_ok p = true
              /\ auth_style2 p = Throw e
              /\ user_rejected (auth_style1 p) = false
              /\ falls_through (auth_style1 p) = true))
    /\ (forall u, snd (activate w) = Ok u ->
          prelude_ok p = true
          /\ provider u = Some (Some (activated p))
          /\ chainId u = None
          /\ (forall a, account u = Some a -> truthy a = true)).
Proof.
  intros p tr R w. unfold w.
  destruct (prelude_ok p) eqn:P.
  2:{ (* the prelude fails *)
      rewrite (activate_prelude_failure p tr P). cbn [snd].
      split; [reflexivity | ]. split; [discriminate | ]. split; [discriminate | ].
      split.
      - intros e E. left. split; [reflexivity | ].
        destruct (snd (prelude_result p)); try discriminate.
        injection E as <-. reflexivity.
      - intros u E. destruct (snd (prelude_result p)); discriminate. }
  split; [discriminate | ].
  destruct (classify_readable _ R) as [[U C] | [(U & a & C & Ha) | (U & H & C)]].
  - (* code 4001 *)
    rewrite (activate_user_rejected p tr P U). cbn [snd].
    split; [ | split; [ | split ] ].
    + intros a _ Ha. rewrite Ha in U. discriminate.
    + intros a2 _ U'. congruence.
    + intros e E. injection E as <-. right. left. repeat split. exact U.
    + intros u E. discriminate.
  - destruct (truthy a) eqn:T.
    + (* an account from the first style *)
      rewrite (activate_first_style p tr a P C T). cbn [snd]. unfold activation.
      rewrite T.
      assert (F : falls_through (auth_style1 p) = false).
      { destruct (auth_style1 p) as [a' | error | ]; cbn [classify] in C.
        - injection C as ->. cbn. rewrite T. reflexivity.
        - cbn [reason_readable user_rejected] in *.
          destruct (get_prop error "code") as [code | | ]; cbn [cbind] in C;
            try discriminate.
          destruct (is_4001 code); try discriminate.
          injection C as <-. discriminate.
        - reflexivity. }
      split; [ | split; [ | split ] ].
      * intros a' _ Ha'. rewrite (Ha a' Ha'). reflexivity.
      * intros a2 _ _ F'. congruence.
      * intros e E. discriminate.
      * intros u E. injection E as <-. cbn. repeat split.
        intros a' E'. injection E' as <-. exact T.
    + (* on to enable() *)
      rewrite (activate_second_style p tr a P C T). cbn [snd]. unfold activation.
      assert (F : falls_through (auth_style1 p) = true).
      { destruct (auth_style1 p) as [a' | error | ]; cbn [classify] in C.
        - injection C as ->. cbn. rewrite T. reflexivity.
        - reflexivity.
        - discriminate. }
      split; [ | split; [ | split ] ].
      * intros a' _ Ha' T'. rewrite <- (Ha a' Ha') in T'. congruence.
      * intros a2 _ _ _ E2. rewrite E2. reflexivity.
      * intros e E. right. right. destruct (auth_style2 p); try discriminate.
        injection E as <-. repeat split; assumption.
      * intros u E. destruct (auth_style2 p) as [a2 | | ]; try discriminate.
        injection E as <-. cbn. repeat split.
        intros a' E'. destruct (truthy a2) eqn:T2; try discriminate.
        injection E' as <-. exact T2.
  - (* the first style never settles *)
    rewrite (activate_pending p tr P C). cbn [snd].
    split; [ | split; [ | split ] ].
    + intros a _ Ha. congruence.
    + intros a2 _ _ F. rewrite H in F. discriminate.
    + intros e E. discriminate.
    + intros u E. discriminate.
Qed.

(** C5 at [metamask_like]: the account comes from the first style. *)
Lemma C5_activate_metamask_like :
  snd (activate (initial (Some metamask_like))) =
    Ok {| provider := Some (Some (activated metamask_like)); chainId := None;
          account := Some (VStr "0xABC") |}.
Proof.
  exact (proj1 (proj2 (C5_activate_outcomes metamask_like [] eq_refl))
           (VStr "0xABC") eq_refl eq_refl eq_refl).
Defined.

(** C2: a first style that rejects without a reason ([undefined]) is a
    failure other than a user rejection, yet [activate] does not go on to
    [enable()]: reading [error.code] in the [catch] block throws, and
    [activate] fails with that [TypeError]. *)
Theorem C2_reasonless_rejection_skips_enable :
  auth_style1 rejects_without_reason = Throw VUndef
  /\ auth_style2 rejects_without_reason = Ok (VStr "0xABC")
  /\ activate (initial (Some rejects_without_reason)) =
       ({| QuasarChain := Some rejects_without_reason;
           trace := [ReadProp "isMetaMask";
                     CallSend (ByName "eth_requestAccounts")] |},
        Throw (VError TypeError)).
Proof. repeat split. Qed.

(** ** A full session *)

(** A provider with events and one authorised account: [activate] resolves
    to the provider and the account, then [getAccount] resolves to the
    account and [isAuthorized] to [true]. *)
Example session_metamask_like :
  forall to_number : value -> number,
    let w1 := fst (activate (initial (Some metamask_like))) in
    activate (initial (Some metamask_like)) =
      ({| QuasarChain := Some (activated metamask_like);
          trace := registrations ++
                   [ReadProp "isMetaMask";
                    WriteProp "autoRefreshOnNetworkChange" (VBool false);
                    CallSend (ByName "eth_requestAccounts")] |},
       Ok {| provider := Some (Some (activated metamask_like)); chainId := None;
             account := Some (VStr "0xABC") |})
    /\ snd (getAccount w1) = Ok (VStr "0xABC")
    /\ snd (isAuthorized to_number w1) = Ok (VBool true)
    /\ lookup "autoRefreshOnNetworkChange" (props (activated metamask_like)) =
         Some (VBool false).
Proof. intros to_number. repeat split. Qed.

(** * Further properties *)

(** ** Frames *)

Lemma frames_ret {A} P (a : A) : frames P (ret a).
Proof. intros w. split; [reflexivity | ]. exists []. now rewrite app_nil_r. Qed.

Lemma frames_throw {A} P e : frames P (@throw A e).
Proof. intros w. split; [reflexivity | ]. exists []. now rewrite app_nil_r. Qed.

Lemma frames_lift {A} P (c : completion A) : frames P (lift c).
Proof. intros w. split; [reflexivity | ]. exists []. now rewrite app_nil_r. Qed.

Lemma frames_provider_present P : frames P provider_present.
Proof. intros w. split; [reflexivity | ]. exists []. now rewrite app_nil_r. Qed.

Lemma frames_the_provider P : frames P the_provider.
Proof.
  intros [[p | ] tr]; cbn; (split; [reflexivity | ]); exists [];
    now rewrite app_nil_r.
Qed.

Lemma frames_log P e : P e = true -> frames P (log e).
Proof.
  intros H w. split; [reflexivity | ]. exists [e]. split; [reflexivity | ].
  cbn. now rewrite H.
Qed.

Lemma frames_bind {A B} P (m : M A) (k : A -> M B) :
  frames P m -> (forall a, frames P (k a)) -> frames P (bind m k).
Proof.
  intros Hm Hk w. unfold bind.
  destruct (Hm w) as (Hs & ext & Ht & Hp).
  destruct (m w) as [w' [a | e | ]]; cbn [fst] in *.
  - destruct (Hk a w') as (Hs' & ext' & Ht' & Hp').
    split; [congruence | ]. exists (ext ++ ext')%list.
    rewrite Ht', Ht, <- app_assoc, forallb_app, Hp, Hp'. now split.
  - split; [assumption | ]. now exists ext.
  - split; [assumption | ]. now exists ext.
Qed.

Lemma frames_try_catch {A} P (m : M A) (h : value -> M A) :
  frames P m -> (forall e, frames P (h e)) -> frames P (try_catch m h).
Proof.
  intros Hm Hh w. unfold try_catch.
  destruct (Hm w) as (Hs & ext & Ht & Hp).
  destruct (m w) as [w' [a | e | ]]; cbn [fst] in *.
  - split; [assumption | ]. now exists ext.
  - destruct (Hh e w') as (Hs' & ext' & Ht' & Hp').
    split; [congruence | ]. exists (ext ++ ext')%list.
    rewrite Ht', Ht, <- app_assoc, forallb_app, Hp, Hp'. now split.
  - split; [assumption | ]. now exists ext.
Qed.

(** Breaks an operation into its statements. *)
Ltac frame :=
  repeat first
    [ apply frames_ret | apply frames_throw | apply frames_lift
    | apply frames_provider_present | apply frames_the_provider
    | apply frames_log; reflexivity
    | apply frames_bind; [ | intros ? ]
    | apply frames_try_catch; [ | intros ? ]
    | match goal with
      | |- frames _ (if ?b then _ else _) => destruct b
      end ].

Lemma frames_first_truthy_prop P rest :
  (forall k, P (ReadProp k) = true) ->
  forall k, frames P (first_truthy_prop k rest).
Proof.
  intros HP. induction rest as [ | k' rest' IH]; intros k;
    cbn [first_truthy_prop]; unfold read_prop.
  - frame. apply frames_log, HP.
  - frame; [apply frames_log, HP | apply IH].
Qed.

(** [getChainId] is a query: whatever the provider does and however the
    call ends, the provider slot is left as it was and nothing happens but
    the three chain-id requests, reads of data properties and warnings: no
    [enable()], no account request, no write, no listener call and no
    notification. *)
Theorem getChainId_is_a_query : frames chain_event getChainId.
Proof.
  unfold getChainId, static_chain_id, send_then, send_object, async_return,
    warning, read_prop.
  frame. all: now apply frames_first_truthy_prop.
Qed.

(** [getAccount] leaves the provider slot as it was and does nothing but
    its two [eth_accounts] requests, [enable()] and warnings: it reads and
    writes no property, makes no listener call and no notification. *)
Theorem getAccount_is_a_query : frames account_event getAccount.
Proof.
  unfold getAccount, send_then, enable_then, send_object, async_return, warning.
  frame.
Qed.

(** ** [isAuthorized] with the provider present *)

Lemma await_falsy v : truthy v = false -> await_ v = Ok v.
Proof. destruct v; try discriminate; reflexivity. Qed.

Lemma has_accounts_boolean to_number r x :
  has_accounts to_number r = Ok x -> exists b, x = VBool b.
Proof.
  unfold has_accounts.
  destruct (parseSendReturn r) as [y | | ]; cbn [cbind]; try discriminate.
  destruct (get_prop y "length") as [len | | ]; cbn [cbind]; try discriminate.
  intros H. injection H as <-. eexists. reflexivity.
Qed.

Lemma authorized_answer_boolean to_number p v :
  answer_send_then p "eth_accounts" (has_accounts to_number) = Ok v ->
  exists b, v = VBool b.
Proof.
  unfold answer_send_then. destruct (send p) as [f | ]; [ | discriminate].
  destruct (f (ByName "eth_accounts")) as [r | | ]; cbn [cbind]; try discriminate.
  destruct r; cbn [then_ cbind]; try discriminate.
  destruct (cbind (await_ (VPromise st)) (has_accounts to_number)) as [x | | ] eqn:E;
    cbn [promise_of await_]; try discriminate.
  destruct (await_ (VPromise st)) as [y | | ]; cbn [cbind] in E; try discriminate.
  destruct (has_accounts_boolean _ _ _ E) as [b ->]. cbn [await_].
  intros H. injection H as <-. now exists b.
Qed.

(** [isAuthorized] never rejects: in every world it resolves to a boolean,
    unless the provider's answer never settles.  It sends at most the one
    [eth_accounts] request, and leaves the provider slot as it was. *)
Theorem isAuthorized_never_rejects :
  forall (to_number : value -> number) (w : world),
    QuasarChain (fst (isAuthorized to_number w)) = QuasarChain w
    /\ (trace (fst (isAuthorized to_number w)) = trace w
        \/ trace (fst (isAuthorized to_number w)) =
             (trace w ++ [CallSend (ByName "eth_accounts")])%list)
    /\ ((exists b, snd (isAuthorized to_number w) = Ok (VBool b))
        \/ snd (isAuthorized to_number w) = Hang).
Proof.
  intros to_number [[p | ] tr].
  - unfold isAuthorized. erewrite bind_ok by reflexivity.
    cbn [negb QuasarChain]. unfold try_catch. rewrite send_then_run.
    destruct (answer_send_then p "eth_accounts" (has_accounts to_number))
      as [v | e | ] eqn:E; cbn.
    + destruct (authorized_answer_boolean _ _ _ E) as [b ->].
      split; [reflexivity | ]. split; [now right | ]. left. now exists b.
    + split; [reflexivity | ]. split; [now right | ]. left. now exists false.
    + split; [reflexivity | ]. split; [now right | ]. now right.
  - cbn. split; [reflexivity | ]. split; [now left | ]. left. now exists false.
Qed.

(** When the [eth_accounts] request resolves to a list of accounts, bare or
    wrapped in [{ result: ... }], [isAuthorized] resolves to whether the
    list is non-empty, whatever the engine's number coercion. *)
Theorem isAuthorized_counts_accounts :
  forall (to_number : value -> number) (p : Provider) (tr : list event) f r l,
    send p = Some f ->
    f (ByName "eth_accounts") = Ok (VPromise (Resolved r)) ->
    r = VArr l \/ r = VObj [("result", VArr l)] ->
    isAuthorized to_number {| QuasarChain := Some p; trace := tr |} =
      ({| QuasarChain := Some p; trace := tr ++ [CallSend (ByName "eth_accounts")] |},
       Ok (VBool (negb (Nat.eqb (List.length l) 0)))).
Proof.
  intros to_number p tr f r l Hs Hf Hr.
  unfold isAuthorized. erewrite bind_ok by reflexivity.
  cbn [negb QuasarChain]. unfold try_catch. rewrite send_then_run.
  assert (E : answer_send_then p "eth_accounts" (has_accounts to_number) =
              Ok (VBool (negb (Nat.eqb (List.length l) 0)))).
  { unfold answer_send_then. rewrite Hs, Hf.
    destruct Hr as [-> | ->]; destruct l; reflexivity. }
  rewrite E. reflexivity.
Qed.

(** The list of [two_accounts] counts as authorised, here with a coercion
    that knows no number at all. *)
Lemma isAuthorized_two_accounts :
  isAuthorized (fun _ => NaN) (initial (Some two_accounts)) =
    ({| QuasarChain := Some two_accounts;
        trace := [CallSend (ByName "eth_accounts")] |}, Ok (VBool true)).
Proof.
  exact (isAuthorized_counts_accounts (fun _ => NaN) two_accounts [] _ _
           [VStr "0xA"; VStr "0xB"] eq_refl eq_refl (or_intror eq_refl)).
Defined.

(** ** The fallback chain of [getAccount] *)

(** [getAccount] stops at the first style that yields a truthy account:
    when the [eth_accounts] request gives one, [enable()] is not called,
    and when [enable()] gives one, the object-style request is not sent. *)
Theorem getAccount_stops_at_first_account :
  forall (p : Provider) (tr : list event),
    let w := {| QuasarChain := Some p; trace := tr |} in
    (forall a, account_style1 p = Ok a -> truthy a = true ->
       getAccount w =
         ({| QuasarChain := Some p;
             trace := tr ++ [CallSend (ByName "eth_accounts")] |}, Ok a))
    /\ (forall a, falls_through (account_style1 p) = true ->
          account_style2 p = Ok a -> truthy a = true ->
          getAccount w =
            ({| QuasarChain := Some p;
                trace := tr ++ CallSend (ByName "eth_accounts")
                           :: warned (account_style1 p) warn_eth_accounts
                           ++ [CallEnable] |}, Ok a)).
Proof.
  intros p tr w. unfold w, account_style1, account_style2. split.
  - intros a H1 T1. unfold getAccount.
    next.
    next_by ltac:(rewrite guarded_send_then_run, H1; reflexivity).
    rewrite T1; cbn [negb]. next.
    rewrite T1; cbn [negb]. next.
    unfold async_return, lift. rewrite (answer_send_then_settled _ _ _ _ H1).
    reflexivity.
  - intros a F1 H2 T2. unfold getAccount.
    destruct (recovered_falsy _ VUndef F1 eq_refl) as (v1 & R1 & T1).
    next.
    next_by ltac:(rewrite guarded_send_then_run, R1; reflexivity).
    rewrite T1; cbn [negb].
    next_by ltac:(rewrite guarded_enable_then_run, H2; reflexivity).
    rewrite T2; cbn [negb]. next.
    unfold async_return, lift. rewrite (answer_enable_then_settled _ _ _ H2).
    cbn [warned]. rewrite <- app_assoc. reflexivity.
Qed.

(** On [legacy_only] the account comes from [enable()], after the failed
    request. *)
Lemma getAccount_legacy_only :
  getAccount (initial (Some legacy_only)) =
    ({| QuasarChain := Some legacy_only;
        trace := [CallSend (ByName "eth_accounts"); Warning warn_eth_accounts;
                  CallEnable] |}, Ok (VStr "0xABC")).
Proof.
  exact (proj2 (getAccount_stops_at_first_account legacy_only [])
           (VStr "0xABC") eq_refl eq_refl eq_refl).
Defined.

(** In [getAccount] the answer of [enable()] goes to the normaliser
    unguarded (line 158): when [enable()] resolves to [undefined] or [null]
    the normaliser throws inside the [try], the failure is absorbed with a
    warning, and the chain goes on to the object-style request, whose
    outcome is the outcome of [getAccount]. *)
Theorem getAccount_absorbs_empty_enable :
  forall (p : Provider) (tr : list event) (sr : value),
    falls_through (account_style1 p) = true ->
    enable p = Some (Ok (VPromise (Resolved sr))) ->
    sr = VUndef \/ sr = VNull ->
    getAccount {| QuasarChain := Some p; trace := tr |} =
      ({| QuasarChain := Some p;
          trace := tr ++ CallSend (ByName "eth_accounts")
                     :: warned (account_style1 p) warn_eth_accounts
                     ++ [CallEnable; Warning warn_enable;
                         CallSend (ByObject "eth_accounts")] |},
       cbind (account_style3 p) await_).
Proof.
  intros p tr sr F1 He Hsr.
  assert (E : account_style2 p = Throw (VError TypeError)).
  { unfold account_style2, answer_enable_then. rewrite He.
    destruct Hsr as [-> | ->]; reflexivity. }
  rewrite (getAccount_last_style p tr F1); rewrite E; reflexivity.
Qed.

(** On [no_account] all three styles answer and none yields an account. *)
Lemma getAccount_no_account :
  getAccount (initial (Some no_account)) =
    ({| QuasarChain := Some no_account;
        trace := [CallSend (ByName "eth_accounts"); CallEnable;
                  Warning warn_enable; CallSend (ByObject "eth_accounts")] |},
     Ok VUndef).
Proof.
  exact (getAccount_absorbs_empty_enable no_account [] VUndef
           eq_refl eq_refl (or_introl eq_refl)).
Defined.

(** ** Requests that never settle *)

(** No operation puts a limit on the provider's answer: when the first
    request is answered by a promise that never settles, [getChainId],
    [getAccount], [activate] (once its prelude has returned) and
    [isAuthorized] never complete, and none goes on to a later style. *)
Theorem pending_request_blocks :
  forall (to_number : value -> number) (p : Provider) (tr : list event) f,
    send p = Some f ->
    (forall m, f (ByName m) = Ok (VPromise Pending)) ->
    let w := {| QuasarChain := Some p; trace := tr |} in
    getChainId w =
      ({| QuasarChain := Some p; trace := tr ++ [CallSend (ByName "eth_chainId")] |},
       Hang)
    /\ getAccount w =
      ({| QuasarChain := Some p; trace := tr ++ [CallSend (ByName "eth_accounts")] |},
       Hang)
    /\ (prelude_ok p = true ->
        activate w =
          ({| QuasarChain := Some (activated p);
              trace := tr ++ activation_prelude p
                         ++ [CallSend (ByName "eth_requestAccounts")] |}, Hang))
    /\ isAuthorized to_number w =
      ({| QuasarChain := Some p; trace := tr ++ [CallSend (ByName "eth_accounts")] |},
       Hang).
Proof.
  intros to_number p tr f Hs Hf w. unfold w.
  assert (A : forall m cb, answer_send_then p m cb = Hang).
  { intros m cb. unfold answer_send_then. rewrite Hs, Hf. reflexivity. }
  split; [ | split; [ | split ] ].
  - unfold getChainId. next.
    erewrite bind_hang by (rewrite guarded_send_then_run, A; reflexivity).
    cbn [warned]. reflexivity.
  - unfold getAccount. next.
    erewrite bind_hang by (rewrite guarded_send_then_run, A; reflexivity).
    cbn [warned]. reflexivity.
  - intros P. apply (activate_pending p tr P). unfold auth_style1. rewrite A.
    reflexivity.
  - unfold isAuthorized. next. unfold try_catch.
    rewrite send_then_run, A. reflexivity.
Qed.

(** The four operations on [never_settles]. *)
Lemma pending_request_blocks_never_settles :
  getChainId (initial (Some never_settles)) =
    ({| QuasarChain := Some never_settles;
        trace := [CallSend (ByName "eth_chainId")] |}, Hang)
  /\ getAccount (initial (Some never_settles)) =
    ({| QuasarChain := Some never_settles;
        trace := [CallSend (ByName "eth_accounts")] |}, Hang)
  /\ activate (initial (Some never_settles)) =
    ({| QuasarChain := Some never_settles;
        trace := [ReadProp "isMetaMask"; CallSend (ByName "eth_requestAccounts")] |},
     Hang)
  /\ isAuthorized (fun _ => NaN) (initial (Some never_settles)) =
    ({| QuasarChain := Some never_settles;
        trace := [CallSend (ByName "eth_accounts")] |}, Hang).
Proof.
  pose proof (pending_request_blocks (fun _ => NaN) never_settles [] _ eq_refl
                (fun _ => eq_refl)) as (H1 & H2 & H3 & H4).
  exact (conj H1 (conj H2 (conj (H3 eq_refl) H4))).
Defined.

(** ** A promise from the object-style request *)

(** [getChainId] does not await the object-style request before
    normalising it (line 121).  When that request answers with a promise,
    the promise itself becomes [chainId]; [getChainId] then settles as the
    promise does, with its value as it is, not unwrapped from
    [{ result: ... }], and with its rejection if it rejects.  The static
    fallback is not consulted. *)
Theorem getChainId_adopts_object_promise :
  forall (p : Provider) (tr : list event) (st : settlement),
    falls_through (chain_style1 p) = true ->
    falls_through (chain_style2 p) = true ->
    answer_send_object p "net_version" = Ok (VPromise st) ->
    getChainId {| QuasarChain := Some p; trace := tr |} =
      ({| QuasarChain := Some p;
          trace := tr ++ CallSend (ByName "eth_chainId")
                     :: warned (chain_style1 p) warn_eth_chainId
                     ++ CallSend (ByName "net_version")
                     :: warned (chain_style2 p) warn_net_version
                     ++ [CallSend (ByObject "net_version")] |},
       await_ (VPromise st)).
Proof.
  intros p tr st F1 F2 H3.
  apply getChainId_style3; try assumption.
  - unfold chain_style3. rewrite H3. reflexivity.
  - reflexivity.
Qed.

(** On [promise_from_object] the caller receives the wrapper, not ["56"]. *)
Lemma getChainId_promise_from_object :
  getChainId (initial (Some promise_from_object)) =
    ({| QuasarChain := Some promise_from_object;
        trace := [CallSend (ByName "eth_chainId"); Warning warn_eth_chainId;
                  CallSend (ByName "net_version"); Warning warn_net_version;
                  CallSend (ByObject "net_version")] |},
     Ok (VObj [("result", VStr "56")])).
Proof.
  exact (getChainId_adopts_object_promise promise_from_object [] _
           eq_refl eq_refl eq_refl).
Defined.

(** ** The error classification of [activate] *)

(** When the prelude of [activate] has returned and its first style
    fails, by a throw, a rejection or a malformed answer, with an error
    whose [code] is [4001], [activate] fails with
    [UserRejectedRequestError] right after that request: [enable()] is not
    called and no warning is left. *)
Theorem activate_user_rejection :
  forall (p : Provider) (tr : list event) (error : value),
    prelude_ok p = true ->
    auth_style1 p = Throw error ->
    get_prop error "code" = Ok (VNum (Int 4001)) ->
    activate {| QuasarChain := Some p; trace := tr |} =
      ({| QuasarChain := Some (activated p);
          trace := tr ++ activation_prelude p
                     ++ [CallSend (ByName "eth_requestAccounts")] |},
       Throw (VError UserRejectedRequestError)).
Proof.
  intros p tr error P H Hc. apply (activate_user_rejected p tr P).
  rewrite H. cbn [user_rejected]. rewrite Hc. reflexivity.
Qed.

(** On [user_denies] the handlers are registered and [enable()], which
    would have produced an account, is not called. *)
Lemma activate_user_denies :
  activate (initial (Some user_denies)) =
    ({| QuasarChain := Some user_denies;
        trace := registrations ++
                 [ReadProp "isMetaMask"; CallSend (ByName "eth_requestAccounts")] |},
     Throw (VError UserRejectedRequestError)).
Proof.
  exact (activate_user_rejection user_denies [] user_denied eq_refl eq_refl eq_refl).
Defined.

(** When the prelude of [activate] has returned and its first style fails
    with an error whose [code] can be read and is not [4001] (a missing
    [send] included), [activate] leaves one warning, calls [enable()], and
    ends as [enable()] does: with its account, or with its failure
    unchanged. *)
Theorem activate_falls_back_to_enable :
  forall (p : Provider) (tr : list event) (error code : value),
    prelude_ok p = true ->
    auth_style1 p = Throw error ->
    get_prop error "code" = Ok code ->
    is_4001 code = false ->
    activate {| QuasarChain := Some p; trace := tr |} =
      ({| QuasarChain := Some (activated p);
          trace := tr ++ activation_prelude p
                     ++ [CallSend (ByName "eth_requestAccounts");
                         Warning warn_requestAccounts;
                         CallEnable] |},
       match auth_style2 p with
       | Ok a => Ok {| provider := Some (Some (activated p)); chainId := None;
                       account := if truthy a then Some a else None |}
       | Throw e => Throw e
       | Hang => Hang
       end).
Proof.
  intros p tr error code P H Hc N.
  rewrite (activate_second_style p tr VUndef P).
  - rewrite H. reflexivity.
  - rewrite H. cbn [classify]. rewrite Hc. cbn [cbind]. rewrite N. reflexivity.
  - reflexivity.
Qed.

(** On [legacy_only], which has no [send], the account comes from
    [enable()]. *)
Lemma activate_legacy_only :
  activate (initial (Some legacy_only)) =
    ({| QuasarChain := Some legacy_only;
        trace := [ReadProp "isMetaMask"; CallSend (ByName "eth_requestAccounts");
                  Warning warn_requestAccounts; CallEnable] |},
     Ok {| provider := Some (Some legacy_only); chainId := None;
           account := Some (VStr "0xABC") |}).
Proof.
  exact (activate_falls_back_to_enable legacy_only [] (VError TypeError) VUndef
           eq_refl eq_refl eq_refl eq_refl).
Defined.

(** When the prelude of [activate] has returned, the first style yields no
    account and [enable()] resolves to a falsy value ([undefined], [null],
    an empty string), the guard of line 89 keeps the normaliser away from
    it: [activate] resolves, to the provider without an account. *)
Theorem activate_tolerates_empty_enable :
  forall (p : Provider) (tr : list event) (a sr : value),
    prelude_ok p = true ->
    classify (auth_style1 p) = Ok a -> truthy a = false ->
    enable p = Some (Ok (VPromise (Resolved sr))) -> truthy sr = false ->
    snd (activate {| QuasarChain := Some p; trace := tr |}) =
      Ok {| provider := Some (Some (activated p)); chainId := None;
            account := None |}.
Proof.
  intros p tr a sr P C T He Ts.
  rewrite (activate_second_style p tr a P C T). cbn [snd].
  assert (E : auth_style2 p = Ok sr).
  { unfold auth_style2, answer_enable_then. rewrite He.
    cbn [cbind then_ await_]. rewrite (await_falsy sr Ts). cbn [cbind].
    unfold guarded_first_of_parsed. rewrite Ts. cbn [promise_of await_].
    apply await_falsy, Ts. }
  rewrite E. unfold activation. rewrite Ts. reflexivity.
Qed.

(** On [no_account] the request resolves to an empty list and [enable()]
    to [undefined]. *)
Lemma activate_no_account :
  snd (activate (initial (Some no_account))) =
    Ok {| provider := Some (Some no_account); chainId := None; account := None |}.
Proof.
  exact (activate_tolerates_empty_enable no_account [] VUndef VUndef
           eq_refl eq_refl eq_refl eq_refl eq_refl).
Defined.

(** ** What [activate] does to the provider and to its listeners *)

Lemma lookup_assign k v fs k' :
  lookup k' (assign k v fs) = if String.eqb k' k then Some v else lookup k' fs.
Proof.
  induction fs as [ | [k0 v0] fs IH]; cbn [assign lookup].
  - destruct (String.eqb k' k); reflexivity.
  - destruct (String.eqb k k0) eqn:E0; cbn [lookup].
    + apply String.eqb_eq in E0. subst k0.
      destruct (String.eqb k' k); reflexivity.
    + rewrite IH. destruct (String.eqb k' k) eqn:E1; [ | reflexivity].
      apply String.eqb_eq in E1. subst k'. rewrite E0. reflexivity.
Qed.

Lemma assign_twice k v fs : assign k v (assign k v fs) = assign k v fs.
Proof.
  induction fs as [ | [k0 v0] fs IH]; cbn [assign].
  - rewrite String.eqb_refl. reflexivity.
  - destruct (String.eqb k k0) eqn:E0; cbn [assign].
    + rewrite String.eqb_refl. reflexivity.
    + rewrite E0, IH. reflexivity.
Qed.

(** The quirk does not change what the prelude does. *)
Lemma prelude_result_activated p : prelude_result (activated p) = prelude_result p.
Proof.
  unfold activated. destruct (truthy (static_value p "isMetaMask")) eqn:T;
    [ | reflexivity].
  unfold prelude_result, subscribe_outcome, static_value in *.
  cbn [with_prop on props assignable]. rewrite lookup_assign. reflexivity.
Qed.

Lemma activated_twice p : activated (activated p) = activated p.
Proof.
  unfold activated. destruct (truthy (static_value p "isMetaMask")) eqn:T.
  - assert (T' : truthy (static_value
                   (with_prop "autoRefreshOnNetworkChange" (VBool false) p)
                   "isMetaMask") = true).
    { unfold static_value in *. cbn [with_prop props].
      rewrite lookup_assign. exact T. }
    rewrite T'. unfold with_prop.
    cbn [on removeListener send enable props assignable].
    rewrite assign_twice. reflexivity.
  - rewrite T. reflexivity.
Qed.

Lemma provider_after_activate_twice p :
  provider_after_activate (provider_after_activate p) = provider_after_activate p.
Proof.
  unfold provider_after_activate, prelude_ok.
  destruct (snd (prelude_result p)) as [[] | e | ] eqn:E.
  - rewrite prelude_result_activated, E. apply activated_twice.
  - rewrite E. reflexivity.
  - rewrite E. reflexivity.
Qed.

(** The world [activate] ends in, whatever its outcome. *)
Lemma activate_world p tr :
  exists rest,
    fst (activate {| QuasarChain := Some p; trace := tr |}) =
      {| QuasarChain := Some (provider_after_activate p);
         trace := tr ++ activation_prelude p ++ rest |}
    /\ forallb request_phase rest = true.
Proof.
  unfold provider_after_activate.
  destruct (prelude_ok p) eqn:P.
  2:{ exists []. rewrite (activate_prelude_failure p tr P), app_nil_r. now split. }
  destruct (classify (auth_style1 p)) as [a | e | ] eqn:C.
  - destruct (truthy a) eqn:T.
    + exists [CallSend (ByName "eth_requestAccounts")].
      rewrite (activate_first_style p tr a P C T). now split.
    + exists (CallSend (ByName "eth_requestAccounts")
              :: warned (auth_style1 p) warn_requestAccounts ++ [CallEnable])%list.
      rewrite (activate_second_style p tr a P C T). split; [reflexivity | ].
      destruct (auth_style1 p); reflexivity.
  - exists [CallSend (ByName "eth_requestAccounts")].
    rewrite (activate_uncaught p tr e P C). now split.
  - exists [CallSend (ByName "eth_requestAccounts")].
    rewrite (activate_pending p tr P C). now split.
Qed.

(** The provider [activate] leaves in the slot differs from the one it
    found at most by the vendor quirk of lines 69-71, whatever the outcome
    of [activate]: the four members and what the provider accepts as
    assignments are as before, and so is every data property, except that
    [autoRefreshOnNetworkChange] is [false] when [isMetaMask] is truthy and
    lines 62-71 returned (the [on] calls returned and the provider accepted
    the assignment).  A second [activate] leaves the same provider. *)
Theorem activate_changes_only_the_quirk :
  forall (p : Provider) (tr : list event),
    exists p',
      QuasarChain (fst (activate {| QuasarChain := Some p; trace := tr |})) = Some p'
      /\ on p' = on p
      /\ removeListener p' = removeListener p
      /\ send p' = send p
      /\ enable p' = enable p
      /\ (forall k, assignable p' k = assignable p k)
      /\ (forall k,
            lookup k (props p') =
              if String.eqb k "autoRefreshOnNetworkChange"
                 && (prelude_ok p && truthy (static_value p "isMetaMask"))
              then Some (VBool false)
              else lookup k (props p))
      /\ QuasarChain
           (fst (activate (fst (activate {| QuasarChain := Some p; trace := tr |})))) =
         Some p'.
Proof.
  intros p tr. exists (provider_after_activate p).
  destruct (activate_world p tr) as (rest & E & _). rewrite E. cbn [QuasarChain].
  split; [reflexivity | ].
  assert (E2 : QuasarChain
                 (fst (activate {| QuasarChain := Some (provider_after_activate p);
                                   trace := tr ++ activation_prelude p ++ rest |})) =
               Some (provider_after_activate p)).
  { destruct (activate_world (provider_after_activate p)
                (tr ++ activation_prelude p ++ rest)) as (rest' & E' & _).
    rewrite E'. cbn [QuasarChain]. now rewrite provider_after_activate_twice. }
  unfold provider_after_activate in *. destruct (prelude_ok p); cbn [andb].
  - unfold activated in *.
    destruct (truthy (static_value p "isMetaMask")).
    + repeat split; try exact E2.
      intros k. cbn [with_prop props]. rewrite lookup_assign, andb_true_r.
      reflexivity.
    + repeat split; try exact E2. intros k. rewrite andb_false_r. reflexivity.
  - repeat split; try exact E2. intros k. rewrite andb_false_r. reflexivity.
Qed.

Lemma request_phase_no_listener rest :
  forallb request_phase rest = true ->
  forallb (fun e => negb (listener_call e)) rest = true.
Proof.
  induction rest as [ | e rest IH]; [reflexivity | ].
  cbn [forallb]. intros H. apply andb_true_iff in H as [He Hr].
  rewrite (IH Hr), andb_true_r. destruct e; try discriminate; reflexivity.
Qed.

(** The listener calls of [activate] are those of lines 62-67, at its very
    start. *)
Lemma activate_listener_calls p tr :
  exists rest,
    trace (fst (activate {| QuasarChain := Some p; trace := tr |})) =
      (tr ++ fst (subscribe_outcome p) ++ rest)%list
    /\ forallb (fun e => negb (listener_call e)) rest = true.
Proof.
  destruct (activate_world p tr) as (rest & E & Hr).
  apply request_phase_no_listener in Hr.
  rewrite E. cbn [trace]. unfold activation_prelude, prelude_result.
  destruct (subscribe_outcome p) as [calls [[] | e | ]]; cbn [fst].
  - destruct (truthy (static_value p "isMetaMask")); cbn [fst].
    + exists ([ReadProp "isMetaMask";
               WriteProp "autoRefreshOnNetworkChange" (VBool false)] ++ rest)%list.
      split; [ | exact Hr]. rewrite <- !app_assoc. reflexivity.
    + exists ([ReadProp "isMetaMask"] ++ rest)%list.
      split; [ | exact Hr]. rewrite <- !app_assoc. reflexivity.
  - exists rest. now split.
  - exists rest. now split.
Qed.

(** [activate] makes its listener calls at its very start and makes no
    other: none on a provider without [on]; on a provider with [on], the
    four registrations in source order up to the first that does not
    return.  If the four return, the handlers are registered whatever the
    later outcome of [activate], so that an activation that then fails, for
    instance by a user rejection, leaves them registered.  If the first
    throws, [activate] fails with what it threw, before any request. *)
Theorem activate_subscribes_first :
  forall (p : Provider) (tr : list event),
    let w := {| QuasarChain := Some p; trace := tr |} in
    (on p = None ->
       exists rest,
         trace (fst (activate w)) = (tr ++ rest)%list
         /\ forallb (fun e => negb (listener_call e)) rest = true)
    /\ (forall f, on p = Some f ->
          exists rest,
            trace (fst (activate w)) =
              (tr ++ fst (emitter_calls CallOn f subscriptions) ++ rest)%list
            /\ forallb (fun e => negb (listener_call e)) rest = true)
    /\ (forall f, on p = Some f -> returns_for_all f = true ->
          exists rest,
            trace (fst (activate w)) = (tr ++ registrations ++ rest)%list
            /\ forallb (fun e => negb (listener_call e)) rest = true)
    /\ (forall f e, on p = Some f ->
          f "chainChanged" BoundChainChanged = Throw e ->
          activate w =
            ({| QuasarChain := Some p;
                trace := tr ++ [CallOn "chainChanged" BoundChainChanged] |},
             Throw e)).
Proof.
  intros p tr w. unfold w.
  destruct (activate_listener_calls p tr) as (rest & E & Hr).
  unfold subscribe_outcome in E.
  split; [ | split; [ | split ] ].
  - intros Hn. rewrite Hn in E. now exists rest.
  - intros f Hf. rewrite Hf in E. now exists rest.
  - intros f Hf Hall. rewrite Hf, (emitter_calls_return _ _ Hall) in E.
    now exists rest.
  - intros f e Hf He.
    assert (P : prelude_ok p = false).
    { unfold prelude_ok, prelude_result, subscribe_outcome. rewrite Hf.
      cbn [emitter_calls subscriptions fst snd]. rewrite He. reflexivity. }
    rewrite (activate_prelude_failure p tr P).
    unfold activation_prelude, prelude_result, subscribe_outcome. rewrite Hf.
    cbn [emitter_calls subscriptions fst snd]. rewrite He. reflexivity.
Qed.

(** On [user_denies] the four handlers are registered although [activate]
    fails; on [broken_emitter] it fails at the first registration. *)
Lemma activate_subscribes_first_examples :
  (exists rest,
     trace (fst (activate (initial (Some user_denies)))) =
       (registrations ++ rest)%list
     /\ forallb (fun e => negb (listener_call e)) rest = true)
  /\ activate (initial (Some broken_emitter)) =
       ({| QuasarChain := Some broken_emitter;
           trace := [CallOn "chainChanged" BoundChainChanged] |},
        Throw (VError TypeError)).
Proof.
  split.
  - exact (proj1 (proj2 (proj2 (activate_subscribes_first user_denies [])))
             _ eq_refl eq_refl).
  - exact (proj2 (proj2 (proj2 (activate_subscribes_first broken_emitter [])))
             _ (VError TypeError) eq_refl eq_refl).
Defined.

(** [deactivate] after [activate], whatever the outcome of [activate]: on
    a provider without [removeListener] nothing is removed, so handlers
    registered through [on] stay, and [deactivate] returns; on a provider
    with [removeListener] it is called for the four handlers in source
    order up to the first call that does not return: if the four return
    they are all removed and [deactivate] returns, and if the first throws
    [deactivate] fails with what it threw.  The provider slot is left as
    [activate] left it. *)
Theorem deactivate_after_activate :
  forall (p : Provider) (tr : list event),
    let w1 := fst (activate {| QuasarChain := Some p; trace := tr |}) in
    deactivate w1 =
      ({| QuasarChain := QuasarChain w1;
          trace := trace w1 ++ fst (unsubscribe_outcome p) |},
       snd (unsubscribe_outcome p))
    /\ (removeListener p = None -> deactivate w1 = (w1, Ok tt))
    /\ (forall f, removeListener p = Some f -> returns_for_all f = true ->
          deactivate w1 =
            ({| QuasarChain := QuasarChain w1; trace := trace w1 ++ removals |},
             Ok tt))
    /\ (forall f e, removeListener p = Some f ->
          f "chainChanged" BoundChainChanged = Throw e ->
          deactivate w1 =
            ({| QuasarChain := QuasarChain w1;
                trace := trace w1
                           ++ [CallRemoveListener "chainChanged" BoundChainChanged] |},
             Throw e)).
Proof.
  intros p tr w1. unfold w1.
  destruct (activate_world p tr) as (rest & E & _). rewrite E.
  assert (D : deactivate {| QuasarChain := Some (provider_after_activate p);
                            trace := tr ++ activation_prelude p ++ rest |} =
              ({| QuasarChain := Some (provider_after_activate p);
                  trace := (tr ++ activation_prelude p ++ rest)
                             ++ fst (unsubscribe_outcome p) |},
               snd (unsubscribe_outcome p))).
  { rewrite deactivate_run. unfold removal_outcome. cbn [QuasarChain trace].
    replace (unsubscribe_outcome (provider_after_activate p))
      with (unsubscribe_outcome p); [reflexivity | ].
    unfold provider_after_activate, activated, unsubscribe_outcome.
    destruct (prelude_ok p); [ | reflexivity].
    destruct (truthy _); reflexivity. }
  rewrite D. cbn [QuasarChain trace]. unfold unsubscribe_outcome.
  split; [reflexivity | ]. split; [ | split ].
  - intros Hn. rewrite Hn. cbn [fst snd]. rewrite app_nil_r. reflexivity.
  - intros f Hf Hall. rewrite Hf, (emitter_calls_return _ _ Hall). reflexivity.
  - intros f e Hf He. rewrite Hf. cbn [emitter_calls subscriptions fst snd].
    rewrite He. reflexivity.
Qed.

(** After the failed activation of [user_denies], [deactivate] removes the
    four handlers. *)
Lemma deactivate_after_activate_user_denies :
  deactivate (fst (activate (initial (Some user_denies)))) =
    ({| QuasarChain := Some user_denies;
        trace := registrations
                   ++ [ReadProp "isMetaMask"; CallSend (ByName "eth_requestAccounts")]
                   ++ removals |},
     Ok tt).
Proof.
  exact (proj1 (proj2 (proj2 (deactivate_after_activate user_denies [])))
           _ eq_refl eq_refl).
Defined.

(** [activate] keeps no record of an earlier activation: on a provider
    whose [on] returns for the four handlers whenever it is called, a
    second [activate] registers the four handlers a second time. *)
Theorem activate_twice_subscribes_twice :
  forall (p : Provider) (tr : list event) f,
    on p = Some f ->
    returns_for_all f = true ->
    exists r1 r2,
      trace (fst (activate (fst (activate {| QuasarChain := Some p; trace := tr |})))) =
        (tr ++ registrations ++ r1 ++ registrations ++ r2)%list
      /\ forallb (fun e => negb (listener_call e)) r1 = true
      /\ forallb (fun e => negb (listener_call e)) r2 = true.
Proof.
  intros p tr f Hon Hall.
  destruct (activate_listener_calls p tr) as (r1 & E1 & H1).
  destruct (activate_world p tr) as (rest & W & _).
  unfold subscribe_outcome in E1.
  rewrite Hon, (emitter_calls_return _ _ Hall) in E1.
  rewrite W in E1 |- *. cbn [trace fst] in E1.
  destruct (activate_listener_calls (provider_after_activate p)
              (tr ++ activation_prelude p ++ rest)%list)
    as (r2 & E2 & H2).
  assert (Hon' : on (provider_after_activate p) = Some f).
  { unfold provider_after_activate, activated.
    destruct (prelude_ok p); [ | exact Hon]. destruct (truthy _); exact Hon. }
  unfold subscribe_outcome in E2.
  rewrite Hon', (emitter_calls_return _ _ Hall) in E2. cbn [fst] in E2.
  exists r1, r2. rewrite E2, E1, <- !app_assoc. now repeat split.
Qed.

(** Two activations of [metamask_like] leave eight registrations. *)
Lemma activate_twice_metamask_like :
  exists r1 r2,
    trace (fst (activate (fst (activate (initial (Some metamask_like)))))) =
      (registrations ++ r1 ++ registrations ++ r2)%list
    /\ forallb (fun e => negb (listener_call e)) r1 = true
    /\ forallb (fun e => negb (listener_call e)) r2 = true.
Proof.
  exact (activate_twice_subscribes_twice metamask_like [] _ eq_refl eq_refl).
Defined.

(** ** Provider events after activation *)

(** [chainChanged] and [networkChanged] are the same to the framework: each
    emits one update with the identifier and the provider slot as it is at
    that moment and nothing else.  After [activate] that is the provider
    [activate] left in the slot: the one it worked on when lines 62-71
    returned, the one it found otherwise.  With the slot empty the update
    still goes out, with [provider: undefined].  [close] emits what
    [accountsChanged] emits on an empty list. *)
Theorem provider_events_after_activation :
  forall (p : Provider) (tr : list event) (id : value),
    let w1 := fst (activate {| QuasarChain := Some p; trace := tr |}) in
    handleChainChanged id w1 =
      ({| QuasarChain := QuasarChain w1;
          trace := trace w1 ++
                   [EmitUpdate {| provider := Some (QuasarChain w1);
                                  chainId := Some id; account := None |}] |}, Ok tt)
    /\ QuasarChain w1 = Some (if prelude_ok p then activated p else p)
    /\ handleNetworkChanged id w1 = handleChainChanged id w1
    /\ handleChainChanged id {| QuasarChain := None; trace := tr |} =
         ({| QuasarChain := None;
             trace := tr ++ [EmitUpdate {| provider := Some None;
                                           chainId := Some id;
                                           account := None |}] |}, Ok tt)
    /\ handleClose w1 = handleAccountsChanged [] w1.
Proof.
  intros p tr id w1. unfold w1.
  destruct (activate_world p tr) as (rest & E & _). rewrite E.
  repeat split.
Qed.
